(** * grace: tasks and task chains

    A shallow embedding of the Go package [grace] (task.go, verify.go,
    chain.go): wrapped callables ("tasks"), the signature verifier, and
    the sequential chain runner with its clean-up hooks.

    The package is written against Go's [reflect], [errors], [fmt] and
    [context] packages.  The fragment of those packages the code relies
    on is modelled first (modules [Errors] and [Reflect], and the
    state monad of section [World]); the code of the package itself
    follows, function by function, then the properties. *)

From Stdlib Require Import ZArith List String Ascii Bool Arith Lia.
From Stdlib Require Import DecimalString.
Import ListNotations.

Local Open Scope list_scope.
Local Open Scope string_scope.

Set Implicit Arguments.
Set Warnings "-register-all".

(* ================================================================== *)
(** ** Outcomes of Go computations: normal return or panic *)

Inductive outcome (A : Type) : Type :=
| Returned (a : A)
| Panicked (msg : string).
Arguments Returned {A} a.
Arguments Panicked {A} msg.

Definition obind {A B} (m : outcome A) (k : A -> outcome B) : outcome B :=
  match m with
  | Returned a => k a
  | Panicked msg => Panicked msg
  end.

Declare Scope go_scope.
Delimit Scope go_scope with go.
Notation "x <~ m ;; k" := (obind m (fun x => k))
  (at level 61, m at next level, right associativity) : go_scope.
Local Open Scope go_scope.

(** Slice indexing [s[i]]: panics when out of range. *)
Definition index {A} (s : list A) (i : nat) : outcome A :=
  match nth_error s i with
  | Some a => Returned a
  | None => Panicked "runtime error: index out of range"
  end.

(** [%d]/[%v] of a non-negative integer. *)
Definition itoa (n : nat) : string := NilEmpty.string_of_uint (Nat.to_uint n).

(** [strings.Contains s sub], as a proposition. *)
Definition Contains (s sub : string) : Prop :=
  exists pre post, s = pre ++ sub ++ post.

(* ================================================================== *)
(** ** Package errors *)

Module Errors.

(** The shapes of error value the package meets: [errors.New] /
    [fmt.Errorf] without [%w], [fmt.Errorf] with one [%w],
    [errors.Join], and a nil pointer of a type with an [Error] method
    boxed in the [error] interface (a non-nil interface value). *)
Inductive error : Type :=
| errorString (s : string)
| wrapError (msg : string) (err : error)
| joinError (errs : list error)
| nilReceiver (typ : string).

Definition New (s : string) : error := errorString s.

Fixpoint joinLines (ls : list string) : string :=
  match ls with
  | [] => ""
  | [l] => l
  | l :: rest => l ++ String "010" (joinLines rest)
  end.

(** The [Error()] method. *)
Fixpoint Error (e : error) : string :=
  match e with
  | errorString s => s
  | wrapError msg _ => msg
  | joinError errs => joinLines (map Error errs)
  | nilReceiver _ => "<nil>"
  end.

(** [errors.Join]: nil arguments are dropped; nil when none is left. *)
Definition Join (errs : list (option error)) : option error :=
  match flat_map (fun o => match o with Some e => [e] | None => [] end) errs with
  | [] => None
  | es => Some (joinError es)
  end.

(** Comparison [err == target] of error values. *)
Fixpoint eqb (a b : error) {struct a} : bool :=
  match a, b with
  | errorString s, errorString s' => String.eqb s s'
  | wrapError m e, wrapError m' e' => String.eqb m m' && eqb e e'
  | joinError es, joinError es' =>
      (fix eqbs (l : list error) (l' : list error) {struct l} : bool :=
         match l, l' with
         | [], [] => true
         | x :: r, x' :: r' => eqb x x' && eqbs r r'
         | _, _ => false
         end) es es'
  | nilReceiver t, nilReceiver t' => String.eqb t t'
  | _, _ => false
  end.

(** [errors.Is]: the error tree of [err] is searched for [target]. *)
Fixpoint Is (err target : error) {struct err} : bool :=
  eqb err target ||
  match err with
  | errorString _ | nilReceiver _ => false
  | wrapError _ e => Is e target
  | joinError es =>
      (fix any (l : list error) : bool :=
         match l with
         | [] => false
         | x :: r => Is x target || any r
         end) es
  end.

(** Induction over error trees. *)
Fixpoint error_tree_ind (P : error -> Prop)
         (Hs : forall s, P (errorString s))
         (Hw : forall msg e, P e -> P (wrapError msg e))
         (Hj : forall es, Forall P es -> P (joinError es))
         (Hn : forall t, P (nilReceiver t))
         (e : error) {struct e} : P e :=
  match e with
  | errorString s => Hs s
  | wrapError msg e' => Hw msg e' (error_tree_ind Hs Hw Hj Hn e')
  | joinError es =>
      Hj es ((fix all (l : list error) : Forall P l :=
                match l with
                | [] => Forall_nil P
                | x :: r => Forall_cons x (error_tree_ind Hs Hw Hj Hn x) (all r)
                end) es)
  | nilReceiver t => Hn t
  end.

End Errors.
Import Errors.

(** [fmt.Errorf(prefix + "%w", err)]: the message is the formatted text,
    the cause is kept for [errors.Is]. *)
Definition Errorf_w (pre : string) (err : error) : error :=
  wrapError (pre ++ Error err) err.

(* ================================================================== *)
(** ** Package reflect: type descriptors and boxed values *)

Module Reflect.

(** Type descriptors ([reflect.Type]) for the fragment of Go types
    the development covers: the predeclared [int], [string], [bool],
    the empty struct, interface types (a name, empty for a literal
    interface, and the names of the methods), pointers to defined
    struct types with their method set, and non-variadic function
    types. *)
Inductive rtype : Type :=
| TInt
| TString
| TBool
| TStruct0
| TInterface (name : string) (methods : list string)
| TPtr (elem : string) (methods : list string)
| TFunc (ins outs : list rtype).

Definition anyType : rtype := TInterface "" [].
Definition errorType : rtype := TInterface "error" ["Error"].

Fixpoint strs_eqb (a b : list string) : bool :=
  match a, b with
  | [], [] => true
  | x :: r, y :: r' => String.eqb x y && strs_eqb r r'
  | _, _ => false
  end.

(** Type identity. *)
Fixpoint rtype_eqb (a b : rtype) {struct a} : bool :=
  match a, b with
  | TInt, TInt | TString, TString | TBool, TBool | TStruct0, TStruct0 => true
  | TInterface n ms, TInterface n' ms' => String.eqb n n' && strs_eqb ms ms'
  | TPtr n ms, TPtr n' ms' => String.eqb n n' && strs_eqb ms ms'
  | TFunc i o, TFunc i' o' =>
      let eqbs :=
        fix eqbs (l l' : list rtype) {struct l} : bool :=
          match l, l' with
          | [], [] => true
          | x :: r, x' :: r' => rtype_eqb x x' && eqbs r r'
          | _, _ => false
          end in
      eqbs i i' && eqbs o o'
  | _, _ => false
  end.

Inductive Kind := Int | String_ | Bool | Struct | Interface | Pointer | Func.

Definition kind (t : rtype) : Kind :=
  match t with
  | TInt => Int
  | TString => String_
  | TBool => Bool
  | TStruct0 => Struct
  | TInterface _ _ => Interface
  | TPtr _ _ => Pointer
  | TFunc _ _ => Func
  end.

Definition isInterface (t : rtype) : bool :=
  match t with TInterface _ _ => true | _ => false end.

(** Method set of a type. *)
Definition methodSet (t : rtype) : list string :=
  match t with
  | TInterface _ ms => ms
  | TPtr _ ms => ms
  | _ => []
  end.

(** [implements T V]: [T] is an interface type and every method of
    [T] is in the method set of [V]. *)
Definition implements (T V : rtype) : bool :=
  match T with
  | TInterface _ ms =>
      forallb (fun m => existsb (String.eqb m) (methodSet V)) ms
  | _ => false
  end.

(** [V.AssignableTo(T)]: identical types, or [T] is an interface that
    [V] implements.  (In this fragment every non-interface type is
    either predeclared or a type literal whose identity is structural,
    so Go's remaining rule, about identical underlying types, adds
    nothing.) *)
Definition AssignableTo (V T : rtype) : bool :=
  rtype_eqb V T || implements T V.

Fixpoint commaSep (ls : list string) : string :=
  match ls with
  | [] => ""
  | [l] => l
  | l :: rest => l ++ ", " ++ commaSep rest
  end.

(** The [String()] method ([%s] of a type). *)
Fixpoint TypeString (t : rtype) : string :=
  match t with
  | TInt => "int"
  | TString => "string"
  | TBool => "bool"
  | TStruct0 => "struct {}"
  | TInterface "" [] => "interface {}"
  | TInterface "" ms => "interface { " ++ commaSep ms ++ " }"
  | TInterface n _ => n
  | TPtr n _ => "*" ++ n
  | TFunc i o =>
      "func(" ++ commaSep (map TypeString i) ++ ")" ++
      match o with
      | [] => ""
      | [r] => " " ++ TypeString r
      | _ => " (" ++ commaSep (map TypeString o) ++ ")"
      end
  end.

(** [NumIn], [In], [NumOut], [Out]: they panic on a type that is not
    a function type, [In] and [Out] also out of range. *)
Definition NumIn (t : rtype) : outcome nat :=
  match t with
  | TFunc i _ => Returned (List.length i)
  | _ => Panicked "reflect: NumIn of non-func type"
  end.

Definition NumOut (t : rtype) : outcome nat :=
  match t with
  | TFunc _ o => Returned (List.length o)
  | _ => Panicked "reflect: NumOut of non-func type"
  end.

Definition In (t : rtype) (i : nat) : outcome rtype :=
  match t with
  | TFunc ins _ =>
      match nth_error ins i with
      | Some a => Returned a
      | None => Panicked "reflect: Func index out of bounds"
      end
  | _ => Panicked "reflect: In of non-func type"
  end.

Definition Out (t : rtype) (i : nat) : outcome rtype :=
  match t with
  | TFunc _ outs =>
      match nth_error outs i with
      | Some a => Returned a
      | None => Panicked "reflect: Func index out of bounds"
      end
  | _ => Panicked "reflect: Out of non-func type"
  end.

(** Payloads of first-order values. *)
Inductive data : Type :=
| DInt (z : Z)
| DString (s : string)
| DBool (b : bool)
| DUnit
| DNil
| DErr (e : error).

(** An interface value ([interface{}], [error], ...): nil, or a
    dynamic type with its payload. *)
Definition any : Type := option (rtype * data).

(** [reflect.TypeOf]: the nil [Type] for a nil interface value. *)
Definition TypeOf (x : any) : option rtype := option_map fst x.

Definition nilDeref : string :=
  "runtime error: invalid memory address or nil pointer dereference".

(** Method call on a possibly nil [reflect.Type]. *)
Definition AssignableTo_nilable (V : option rtype) (T : rtype) : outcome bool :=
  match V with
  | Some v => Returned (AssignableTo v T)
  | None => Panicked nilDeref
  end.

(** [reflect.Value]: the zero (invalid) Value, or a static type with
    its content. *)
Inductive Value : Type :=
| Invalid
| mkValue (typ : rtype) (v : any).

Definition ValueOf (x : any) : Value :=
  match x with
  | None => Invalid
  | Some (t, _) => mkValue t x
  end.

Definition Interface_ (v : Value) : outcome any :=
  match v with
  | Invalid => Panicked "reflect: call of reflect.Value.Interface on zero Value"
  | mkValue _ x => Returned x
  end.

(** The type assertion [x.(T)]: panics on a nil interface value and
    on a dynamic type that is not (for a concrete [T]) identical to
    [T] or (for an interface [T]) an implementation of it. *)
Definition typeAssert (x : any) (T : rtype) : outcome any :=
  match x with
  | None => Panicked "interface conversion: interface is nil"
  | Some (t, _) =>
      if AssignableTo t T then Returned x
      else Panicked "interface conversion: wrong dynamic type"
  end.

(** The comma-ok form [x.(error)]. *)
Definition assertError (x : any) : option error * bool :=
  match x with
  | Some (t, d) =>
      if implements errorType t
      then (Some (match d with DErr e => e | _ => nilReceiver (TypeString t) end), true)
      else (None, false)
  | None => (None, false)
  end.

(** Payloads a (non-interface) dynamic type admits. *)
Definition dataOK (t : rtype) (d : data) : bool :=
  match t, d with
  | TInt, DInt _ | TString, DString _ | TBool, DBool _ | TStruct0, DUnit => true
  | TPtr _ _, DNil | TPtr _ _, DErr _ | TFunc _ _, DNil => true
  | _, _ => false
  end.

(** [conforms T x]: the interface value [x] can be the content of a
    variable of static type [T]. *)
Definition conforms (T : rtype) (x : any) : bool :=
  match x with
  | None => isInterface T
  | Some (t, d) => negb (isInterface t) && AssignableTo t T && dataOK t d
  end.

Definition zeroData (t : rtype) : data :=
  match t with
  | TInt => DInt 0
  | TString => DString ""
  | TBool => DBool false
  | TStruct0 => DUnit
  | _ => DNil
  end.

End Reflect.
Import Reflect.

(* ================================================================== *)
(** ** Effects: the callers' world and the invocation trace *)

(** Invocations of caller-supplied code, recorded in order.  The trace
    is ghost state: the program neither reads nor writes it. *)
Inductive event : Type :=
| EvFn (task : string)
| EvTaskCleanup (task : string)
| EvChainCleanup (chain : string).

Section World.

(** Whatever the wrapped callables, the clean-up hooks and the
    context close over. *)
Variable W : Type.

Record state : Type := mkState { world : W; trace : list event }.

(** Stateful Go computations. *)
Definition M (A : Type) : Type := state -> outcome A * state.

Definition ret {A} (a : A) : M A := fun st => (Returned a, st).

Definition bind {A B} (m : M A) (k : A -> M B) : M B :=
  fun st =>
    match m st with
    | (Returned a, st') => k a st'
    | (Panicked msg, st') => (Panicked msg, st')
    end.

Definition lift {A} (o : outcome A) : M A := fun st => (o, st).

Definition panic {A} (msg : string) : M A := fun st => (Panicked msg, st).

Definition log (e : event) : M unit :=
  fun st => (Returned tt, mkState (world st) (trace st ++ [e])%list).

(** Run caller code [f] on the world. *)
Definition effect {A} (f : W -> A * W) : M A :=
  fun st => let (a, w) := f (world st) in (Returned a, mkState w (trace st)).

(** Read the world. *)
Definition observe {A} (f : W -> A) : M A :=
  fun st => (Returned (f (world st)), st).

End World.

Arguments ret {W A} a.
Arguments lift {W A} o.
Arguments panic {W A} msg.
Arguments log {W} e.

Notation "x <- m ;; k" := (bind m (fun x => k))
  (at level 61, m at next level, right associativity) : go_scope.
Notation "' pat <- m ;; k" := (bind m (fun x => match x with pat => k end))
  (at level 61, pat pattern, m at next level, right associativity) : go_scope.

(* ================================================================== *)
(** ** Package grace *)

Section Grace.

Variable W : Type.

Local Abbreviation M := (M W).

(** *** Function values and [reflect.Value.Call] *)

(** A boxed value used as a callable ([reflect.ValueOf(config.Fn)]):
    its type and, for a non-nil function value, its body.  A body
    takes the boxed arguments and the world, and gives the boxed
    results and the new world.  Slices are lists; the nil slice is
    the empty list. *)
Record Callable : Type := mkCallable {
  fn_type : rtype;
  fn_body : option (list any -> W -> list any * W)
}.

Definition content (v : Value) : any :=
  match v with
  | Invalid => None
  | mkValue _ x => x
  end.

Fixpoint checkArgs (ins : list rtype) (args : list Value) : outcome unit :=
  match ins, args with
  | t :: ins', Invalid :: _ => Panicked "reflect: Call using zero Value argument"
  | t :: ins', mkValue xt _ :: args' =>
      if AssignableTo xt t then checkArgs ins' args'
      else Panicked "reflect: Call using a value of the wrong type"
  | _, _ => Returned tt
  end.

(** Go's type checker makes a function return exactly the declared
    number of results, each fit for its declared type; a body that
    does not is not a Go function, and the call is given no result. *)
Fixpoint wrapOuts (outs : list rtype) (rs : list any) : outcome (list Value) :=
  match outs, rs with
  | [], [] => Returned []
  | t :: outs', r :: rs' =>
      if conforms t r
      then vs <~ wrapOuts outs' rs' ;; Returned (mkValue t r :: vs)
      else Panicked "ill-typed function body"
  | _, _ => Panicked "ill-typed function body"
  end.

(** [fn.Call(args)].  [label] names the caller in the trace. *)
Definition Call (label : string) (fn : Callable) (args : list Value) : M (list Value) :=
  match fn_type fn, fn_body fn with
  | TFunc ins outs, Some body =>
      if negb (Nat.eqb (List.length args) (List.length ins))
      then panic "reflect: Call with too few or too many input arguments"
      else
        _ <- lift (checkArgs ins args) ;;
        _ <- log (EvFn label) ;;
        rs <- effect (body (map content args)) ;;
        lift (wrapOuts outs rs)
  | TFunc _ _, None => panic "reflect: call of nil function"
  | _, _ => panic "reflect: call of non-function"
  end.

(** *** task.go *)

Record Task : Type := mkTask {
  t_Name : string;
  t_Fn : Callable;
  t_ReturnValueTypes : list rtype;
  t_hasErrorOut : bool;
  t_Cleanup : option (W -> option error * W)
}.

Definition emptyTypes : list rtype := [].

Record TaskConfig : Type := mkTaskConfig {
  cfg_Name : string;
  cfg_Cleanup : option (W -> option error * W);
  cfg_Fn : option Callable
}.

Definition NotFuncErr : error := New "Fn must be a function".
Definition IncompatibleFunctionSignatureErr : error :=
  New "incompatible task function signatures".

Definition isFunc (fn : rtype) : option error :=
  match kind fn with
  | Func => None
  | _ => Some NotFuncErr
  end.

Definition hasErrorOut (fn : rtype) : outcome bool :=
  n <~ NumOut fn ;;
  if Nat.ltb 0 n
  then o <~ Out fn (n - 1) ;; Returned (AssignableTo o errorType)
  else Returned false.

(** The loop [for i := 0; i < size; i++ { types[i] = fn.Out(i) }],
    from index [i] with [count] iterations left. *)
Fixpoint fillTypes (fn : rtype) (i count : nat) : outcome (list rtype) :=
  match count with
  | O => Returned []
  | S c =>
      o <~ Out fn i ;;
      rest <~ fillTypes fn (S i) c ;;
      Returned (o :: rest)
  end.

Definition getReturnValueTypes (fn : rtype) (hasErrorOut : bool) : outcome (list rtype) :=
  n <~ NumOut fn ;;
  if Nat.eqb n 0 then Returned emptyTypes
  else
    let size := if hasErrorOut then n - 1 else n in
    fillTypes fn 0 size.

Definition NewTask (config : TaskConfig) : outcome (option Task * option error) :=
  match cfg_Fn config with
  | None =>
      Returned (None, Some (errorString
        ("failed to create task: '" ++ cfg_Name config ++ "': Fn cannot be nil")))
  | Some fn =>
      let fnType := fn_type fn in
      match isFunc fnType with
      | Some err =>
          Returned (None, Some (Errorf_w
            ("failed to create task '" ++ cfg_Name config ++ "': ") err))
      | None =>
          hasErrOut <~ hasErrorOut fnType ;;
          types <~ getReturnValueTypes fnType hasErrOut ;;
          Returned (Some {| t_Fn := fn;
                            t_Name := cfg_Name config;
                            t_Cleanup := cfg_Cleanup config;
                            t_hasErrorOut := hasErrOut;
                            t_ReturnValueTypes := types |}, None)
      end
  end.

Definition Task_doCleanup (t : Task) (v : list Value) (err : option error)
  : M (list Value * option error) :=
  match t_Cleanup t with
  | Some cleanup =>
      _ <- log (EvTaskCleanup (t_Name t)) ;;
      cuErr <- effect cleanup ;;
      match cuErr with
      | Some e => ret (v, Join [Some e; err])
      | None => ret (v, err)
      end
  | None => ret (v, err)
  end.

Definition Task_Run (t : Task) (params : list Value) : M (list Value * option error) :=
  r <- Call (t_Name t) (t_Fn t) params ;;
  if t_hasErrorOut t then
    last <- lift (index r (List.length r - 1)) ;;
    x <- lift (Interface_ last) ;;
    match assertError x with
    | (Some err, true) => Task_doCleanup t [] (Some err)
    | _ => Task_doCleanup t (firstn (List.length r - 1) r) None
    end
  else
    Task_doCleanup t r None.

(** *** verify.go *)

Definition invalidParamCountFmt (o : string) (no : nat) (i : string) (ni : nat) : string :=
  o ++ " has " ++ itoa no ++ " output(s), but " ++ i ++ " expects " ++ itoa ni ++ " input(s)".

Definition invalidParamTypeFmt (o i ot it : string) : string :=
  "between " ++ o ++ " and " ++ i ++ ": " ++ ot ++ " is not assignable to " ++ it.

(** The loop [for i, typ := range output.ReturnValueTypes], from
    index [i] with [types] left to visit ([typ] is
    [output.ReturnValueTypes[i]]). *)
Fixpoint compatLoop (output input : Task) (i : nat) (types : list rtype)
  : outcome (option error) :=
  match types with
  | [] => Returned None
  | typ :: rest =>
      inTyp <~ In (fn_type (t_Fn input)) i ;;
      if negb (AssignableTo inTyp typ) then
        let err := errorString
          (invalidParamTypeFmt (t_Name output) (t_Name input) (TypeString typ) (TypeString inTyp)) in
        Returned (Join [Some IncompatibleFunctionSignatureErr; Some err])
      else compatLoop output input (S i) rest
  end.

Definition verifyTaskCompatibility (output input : Task) : outcome (option error) :=
  numIn <~ NumIn (fn_type (t_Fn input)) ;;
  if negb (Nat.eqb (List.length (t_ReturnValueTypes output)) numIn) then
    let err := errorString
      (invalidParamCountFmt (t_Name output) (List.length (t_ReturnValueTypes output))
                            (t_Name input) numIn) in
    Returned (Join [Some IncompatibleFunctionSignatureErr; Some err])
  else compatLoop output input 0 (t_ReturnValueTypes output).

(** The type parameter [T] is passed as its descriptor,
    [reflect.TypeFor[T]()]. *)
Definition verifyReturnType (T : rtype) (last : Task) : outcome (option error) :=
  let typ := fn_type (t_Fn last) in
  numOut <~ NumOut typ ;;
  if Nat.eqb numOut 0 then Returned None
  else
    let retTyp := T in
    outTyp <~ Out typ (numOut - 1) ;;
    if negb (AssignableTo outTyp retTyp) then
      Returned (Some (errorString
        ("return type " ++ TypeString outTyp ++
         " is not compatible to the last output type: " ++ TypeString retTyp)))
    else Returned None.

(** The loop [for i, p := range params]. *)
Fixpoint initLoop (firstFn : rtype) (i : nat) (params : list any)
  : outcome (option error) :=
  match params with
  | [] => Returned None
  | p :: rest =>
      expectedType <~ In firstFn i ;;
      let actualType := TypeOf p in
      ok <~ AssignableTo_nilable actualType expectedType ;;
      if negb ok then
        Returned (Some (errorString
          ("invalid input params: expected " ++ TypeString expectedType ++ " at " ++
           itoa (i + 1) ++ " but got " ++
           match actualType with Some a => TypeString a | None => "<nil>" end)))
      else initLoop firstFn (S i) rest
  end.

Definition verifyInitialParams (firstFn : rtype) (params : list any)
  : outcome (option error) :=
  let paramSize := List.length params in
  expectedSize <~ NumIn firstFn ;;
  if negb (Nat.eqb paramSize expectedSize) then
    Returned (Some (errorString
      ("invalid input params: expected " ++ itoa expectedSize ++
       " params but got " ++ itoa paramSize)))
  else initLoop firstFn 0 params.

(** *** chain.go *)

Record TaskChain : Type := mkTaskChain {
  tc_Tasks : list Task;
  tc_Cleanup : option (W -> option error * W);
  tc_Name : string;
  tc_hasOutput : bool
}.

Record TaskChainConfig : Type := mkTaskChainConfig {
  ccfg_Name : string;
  ccfg_Cleanup : option (W -> option error * W);
  ccfg_Tasks : list (option Task)
}.

(** The nil-removing loop of [NewTaskChain]: at index [i], a nil
    entry is cut out ([append(tasks[:i], tasks[i+1:]...)]) and the
    index stays; otherwise the index moves on.  Every iteration
    shrinks [len(tasks) - i], which bounds the fuel. *)
Fixpoint dropNilLoop (fuel i : nat) (tasks : list (option Task)) : list (option Task) :=
  match fuel with
  | O => tasks
  | S fuel' =>
      match nth_error tasks i with
      | None => tasks
      | Some None => dropNilLoop fuel' i (firstn i tasks ++ skipn (S i) tasks)%list
      | Some (Some _) => dropNilLoop fuel' (S i) tasks
      end
  end.

(** The entries left are non-nil pointers. *)
Fixpoint derefAll (tasks : list (option Task)) : list Task :=
  match tasks with
  | [] => []
  | Some t :: rest => t :: derefAll rest
  | None :: rest => derefAll rest
  end.

Definition dropNil (tasks : list (option Task)) : list Task :=
  derefAll (dropNilLoop (List.length tasks) 0 tasks).

(** The loop [for i := 1; i < size; i++] over adjacent pairs; the
    [%w] wrapping with the chain's name is done by the caller. *)
Fixpoint verifyAdjacent (tasks : list Task) : outcome (option error) :=
  match tasks with
  | prev :: (curr :: _) as rest =>
      err <~ verifyTaskCompatibility prev curr ;;
      match err with
      | Some e => Returned (Some e)
      | None => verifyAdjacent rest
      end
  | _ => Returned None
  end.

Definition NewTaskChain (T : rtype) (config : TaskChainConfig)
  : outcome (option TaskChain * option error) :=
  let tasks := dropNil (ccfg_Tasks config) in
  let size := List.length tasks in
  if Nat.eqb size 0 then
    Returned (Some {| tc_Tasks := []; tc_hasOutput := false;
                      tc_Cleanup := None; tc_Name := "" |}, None)
  else
    err <~ verifyAdjacent tasks ;;
    match err with
    | Some e =>
        Returned (None, Some (Errorf_w
          ("failed to create task '" ++ ccfg_Name config ++ "': ") e))
    | None =>
        last <~ index tasks (size - 1) ;;
        let hasLastTaskOut := Nat.ltb 0 (List.length (t_ReturnValueTypes last)) in
        err <~ verifyReturnType T last ;;
        match err with
        | Some e =>
            Returned (None, Some (Errorf_w
              ("failed to create task '" ++ ccfg_Name config ++ "': ") e))
        | None =>
            Returned (Some {| tc_Tasks := tasks; tc_hasOutput := hasLastTaskOut;
                              tc_Cleanup := ccfg_Cleanup config;
                              tc_Name := ccfg_Name config |}, None)
        end
    end.

(** [Zero[T]()]. *)
Definition Zero (T : rtype) : any :=
  if isInterface T then None else Some (T, zeroData T).

(** [context.Context]: only [Err] is used; it reads the world. *)
Record Context : Type := mkContext { ctx_Err : W -> option error }.

Definition TaskChain_doCleanup (tc : TaskChain) (v : any) (err : option error)
  : M (any * option error) :=
  match tc_Cleanup tc with
  | Some cleanup =>
      _ <- log (EvChainCleanup (tc_Name tc)) ;;
      e <- effect cleanup ;;
      match e with
      | Some e => ret (v, Join [Some e; err])
      | None => ret (v, err)
      end
  | None => ret (v, err)
  end.

(** [ctx != nil && ctx.Err() != nil], giving [ctx.Err()]. *)
Definition ctxErr (ctx : option Context) : M (option error) :=
  match ctx with
  | None => ret None
  | Some c => observe (ctx_Err c)
  end.

(** The loop [for i, t := range tc.Tasks] of [Run] from index [i],
    with [ts] the tasks left, followed by the code after the loop. *)
Fixpoint runTasks (T : rtype) (tc : TaskChain) (ctx : option Context)
         (i : nat) (ts : list Task) (currentResults : list Value)
  : M (any * option error) :=
  match ts with
  | t :: rest =>
      cerr <- ctxErr ctx ;;
      match cerr with
      | Some e => TaskChain_doCleanup tc (Zero T) (Some e)
      | None =>
          r <- Task_Run t currentResults ;;
          match r with
          | (_, Some err) =>
              TaskChain_doCleanup tc (Zero T)
                (Some (Errorf_w ("error running task " ++ itoa i ++ ": ") err))
          | (results, None) => runTasks T tc ctx (S i) rest results
          end
      end
  | [] =>
      if Nat.eqb (List.length currentResults) 0 then
        TaskChain_doCleanup tc (Zero T) None
      else
        last <- lift (index currentResults (List.length currentResults - 1)) ;;
        x <- lift (Interface_ last) ;;
        v <- lift (typeAssert x T) ;;
        TaskChain_doCleanup tc v None
  end.

Definition Run (T : rtype) (tc : TaskChain) (ctx : option Context) (params : list any)
  : M (any * option error) :=
  match tc_Tasks tc with
  | [] => TaskChain_doCleanup tc (Zero T) None
  | first :: _ =>
      err <- lift (verifyInitialParams (fn_type (t_Fn first)) params) ;;
      match err with
      | Some e =>
          TaskChain_doCleanup tc (Zero T)
            (Some (Errorf_w ("error running " ++ tc_Name tc ++ ": ") e))
      | None =>
          let currentResults := map ValueOf params in
          runTasks T tc ctx 0 (tc_Tasks tc) currentResults
      end
  end.

(** *** Vocabulary of the statements *)

(** The state a clean-up hook leaves, and the error that comes out of
    [doCleanup]: [ev] is logged and the hook run, when there is one;
    its error, when it has one, is joined in front of [err]. *)
Definition cleanupState (cleanup : option (W -> option error * W)) (ev : event)
           (st : state W) : state W :=
  match cleanup with
  | Some f => mkState (snd (f (world st))) (trace st ++ [ev])%list
  | None => st
  end.

Definition cleanupError (cleanup : option (W -> option error * W))
           (err : option error) (st : state W) : option error :=
  match cleanup with
  | Some f =>
      match fst (f (world st)) with
      | Some e => Join [Some e; err]
      | None => err
      end
  | None => err
  end.

(** The error a task body signalled through its results [r]. *)
Definition signalledError (t : Task) (r : list Value) : option error :=
  if t_hasErrorOut t
  then fst (assertError (content (List.last r Invalid)))
  else None.

(** The error [verifyTaskCompatibility] builds for a type mismatch
    between output type [o] and input type [a]. *)
Definition typeMismatchErr (output input : Task) (o a : rtype) : error :=
  joinError
    [IncompatibleFunctionSignatureErr;
     errorString (invalidParamTypeFmt (t_Name output) (t_Name input)
                                      (TypeString o) (TypeString a))].

(** Events of tasks, as opposed to the chain's clean-up. *)
Definition isTaskEvent (ev : event) : Prop :=
  match ev with
  | EvChainCleanup _ => False
  | _ => True
  end.

(** The events one complete invocation of a task leaves: the body's,
    then the clean-up's when a hook is configured. *)
Definition taskEvents (t : Task) : list event :=
  EvFn (t_Name t) ::
  match t_Cleanup t with
  | Some _ => [EvTaskCleanup (t_Name t)]
  | None => []
  end.

(** [v.Type()] of a valid [reflect.Value]. *)
Definition staticType (v : Value) : option rtype :=
  match v with
  | Invalid => None
  | mkValue t _ => Some t
  end.

(** A non-nil entry of a task list. *)
Definition notNil (t : option Task) : bool :=
  match t with
  | Some _ => true
  | None => false
  end.

(** The states of the loop of [Run]: [LoopAt tc ctx params s0 k cur st]
    holds when the call [Run(ctx, params...)] started in state [s0]
    arrives at the head of iteration [k] with [currentResults = cur],
    in state [st].  Iteration 0 is reached once the arguments have
    been accepted; iteration [k+1] once the context showed no error at
    the head of iteration [k] and task [k] returned without error. *)
Inductive LoopAt (tc : TaskChain) (ctx : option Context) (params : list any)
          (s0 : state W) : nat -> list Value -> state W -> Prop :=
| LoopAt_first first rest :
    tc_Tasks tc = first :: rest ->
    verifyInitialParams (fn_type (t_Fn first)) params = Returned None ->
    LoopAt tc ctx params s0 0 (map ValueOf params) s0
| LoopAt_next k cur st t results st' :
    LoopAt tc ctx params s0 k cur st ->
    nth_error (tc_Tasks tc) k = Some t ->
    ctxErr ctx st = (Returned None, st) ->
    Task_Run t cur st = (Returned (results, None), st') ->
    LoopAt tc ctx params s0 (S k) results st'.

End Grace.

Arguments mkCallable {W} fn_type fn_body.
Arguments mkContext {W} ctx_Err.

(* ================================================================== *)
(** ** Concrete tasks and chains

    The callables of the package's tests and a few more, written as
    bodies over boxed values.  Go's [int] is 64 bits wide. *)

Definition wrap64 (z : Z) : Z := ((z + 2 ^ 63) mod 2 ^ 64 - 2 ^ 63)%Z.

Definition boxInt (z : Z) : any := Some (TInt, DInt z).
Definition boxString (s : string) : any := Some (TString, DString s).

Definition numErrorType : rtype := TPtr "strconv.NumError" ["Error"].

Definition boxError (typ : rtype) (e : option error) : any :=
  match e with
  | Some e => Some (typ, DErr e)
  | None => None
  end.

Definition digitOf (c : ascii) : option Z :=
  let n := nat_of_ascii c in
  if (Nat.leb 48 n && Nat.leb n 57)%bool then Some (Z.of_nat (n - 48)) else None.

Fixpoint parseDigits (s : string) (acc : Z) : option Z :=
  match s with
  | EmptyString => Some acc
  | String c r =>
      match digitOf c with
      | Some d => parseDigits r (acc * 10 + d)%Z
      | None => None
      end
  end.

(** [%q] of a string without special characters. *)
Definition quoted (s : string) : string :=
  String (ascii_of_nat 34) (s ++ String (ascii_of_nat 34) EmptyString).

(** [strconv.Atoi]: an optional sign and decimal digits, within the
    range of [int]. *)
Definition Atoi (s : string) : Z * option error :=
  let syntaxErr :=
    errorString ("strconv.Atoi: parsing " ++ quoted s ++ ": invalid syntax") in
  let rangeErr :=
    errorString ("strconv.Atoi: parsing " ++ quoted s ++ ": value out of range") in
  let (neg, digits) :=
    match s with
    | String "-" r => (true, r)
    | String "+" r => (false, r)
    | _ => (false, s)
    end in
  match digits with
  | EmptyString => (0%Z, Some syntaxErr)
  | _ =>
      match parseDigits digits 0 with
      | None => (0%Z, Some syntaxErr)
      | Some n =>
          let v := if neg then (- n)%Z else n in
          if (Z.ltb v (- 2 ^ 63))%Z then ((- 2 ^ 63)%Z, Some rangeErr)
          else if (Z.ltb (2 ^ 63 - 1) v)%Z then ((2 ^ 63 - 1)%Z, Some rangeErr)
          else (v, None)
      end
  end.

Section Examples.

Variable W : Type.

(** [context.Background()]. *)
Definition Background : Context W := mkContext (fun _ => None).

(** [func(s string) (int, error) { return strconv.Atoi(s) }] *)
Definition fnParse : Callable W :=
  mkCallable (TFunc [TString] [TInt; errorType])
    (Some (fun args w =>
       match args with
       | [Some (_, DString s)] =>
           let (n, e) := Atoi s in ([boxInt n; boxError numErrorType e], w)
       | _ => ([], w)
       end)).

(** [func(n int) int { return n * 10 }] *)
Definition fnTimes10 : Callable W :=
  mkCallable (TFunc [TInt] [TInt])
    (Some (fun args w =>
       match args with
       | [Some (_, DInt n)] => ([boxInt (wrap64 (n * 10))], w)
       | _ => ([], w)
       end)).

Definition cfgFirst : TaskConfig W := mkTaskConfig "first" None (Some fnParse).
Definition cfgSecond : TaskConfig W := mkTaskConfig "second" None (Some fnTimes10).

Definition taskFirst : Task W := mkTask "first" fnParse [TInt] true None.
Definition taskSecond : Task W := mkTask "second" fnTimes10 [TInt] false None.

(** [func() int { return 0 }] and [func(x any) {}] *)
Definition fnGiveInt : Callable W :=
  mkCallable (TFunc [] [TInt]) (Some (fun _ w => ([boxInt 0], w))).
Definition fnTakeAny : Callable W :=
  mkCallable (TFunc [anyType] []) (Some (fun _ w => ([], w))).

(** [func() any { return 0 }] and [func(n int) {}] *)
Definition fnGiveAny : Callable W :=
  mkCallable (TFunc [] [anyType]) (Some (fun _ w => ([boxInt 0], w))).
Definition fnTakeInt : Callable W :=
  mkCallable (TFunc [TInt] []) (Some (fun _ w => ([], w))).

Definition taskGiveInt : Task W := mkTask "p" fnGiveInt [TInt] false None.
Definition taskTakeAny : Task W := mkTask "c" fnTakeAny [] false None.
Definition taskGiveAny : Task W := mkTask "p" fnGiveAny [anyType] false None.
Definition taskTakeInt : Task W := mkTask "c" fnTakeInt [] false None.

(** [func() (int, error) { return 5, nil }] *)
Definition fnFiveNil : Callable W :=
  mkCallable (TFunc [] [TInt; errorType]) (Some (fun _ w => ([boxInt 5; None], w))).
Definition taskFiveNil : Task W := mkTask "five" fnFiveNil [TInt] true None.

(** A clean-up hook that fails. *)
Definition cleanupErr : error := New "Cleanup error".
Definition failingCleanup : W -> option error * W := fun w => (Some cleanupErr, w).

End Examples.

(** A world with one cell, the cancellation flag of a context made by
    [context.WithCancel]. *)
Definition Canceled : error := New "context canceled".

Definition cancelCtx : Context bool :=
  mkContext (fun cancelled : bool => if cancelled then Some Canceled else None).

(** [func() { cancel() }] and [func() {}] *)
Definition fnCancel : Callable bool :=
  mkCallable (TFunc [] []) (Some (fun _ _ => ([], true))).
Definition fnNop : Callable bool :=
  mkCallable (TFunc [] []) (Some (fun _ w => ([], w))).

Definition taskCancel : Task bool :=
  mkTask "t1" fnCancel [] false (Some (fun w => (None, w))).
Definition taskNop : Task bool := mkTask "t2" fnNop [] false None.

Definition st0 {W} (w : W) : state W := mkState w [].

(** The parse-and-multiply chain, and a configuration for it with nil
    entries in between. *)
Definition chainParseTimes : TaskChain unit :=
  mkTaskChain [taskFirst unit; taskSecond unit] None "test_chain" true.

Definition cfgParseTimes : TaskChainConfig unit :=
  mkTaskChainConfig "test_chain" None
    [None; Some (taskFirst unit); None; Some (taskSecond unit)].

(* ================================================================== *)
(** ** Properties *)

(** *** Lists and outcomes *)

Lemma skipn_nth_error_cons {A} (l : list A) (i : nat) (a : A) :
  nth_error l i = Some a -> skipn i l = a :: skipn (S i) l.
Proof.
  revert i; induction l as [|x l IH]; intros [|i] H; simpl in *; try discriminate.
  - now inversion H.
  - now apply IH.
Qed.

Lemma nth_error_last {A} (l : list A) (a : A) :
  nth_error (l ++ [a])%list (List.length (l ++ [a])%list - 1) = Some a.
Proof.
  rewrite length_app; simpl.
  replace (List.length l + 1 - 1) with (List.length l) by lia.
  rewrite nth_error_app2 by lia.
  now rewrite Nat.sub_diag.
Qed.

Lemma obind_Returned {A B} (m : outcome A) (k : A -> outcome B) (b : B) :
  obind m k = Returned b -> exists a, m = Returned a /\ k a = Returned b.
Proof. destruct m; simpl; intros H; [eauto | discriminate]. Qed.

Ltac inv_obind H :=
  let a := fresh "a" in
  let Ha := fresh "Ha" in
  apply obind_Returned in H; destruct H as (a & Ha & H).

(** *** The constructor of tasks (task.go) *)

Lemma fillTypes_firstn (ins outs : list rtype) (count i : nat) :
  i + count <= List.length outs ->
  fillTypes (TFunc ins outs) i count = Returned (firstn count (skipn i outs)).
Proof.
  revert i; induction count as [|c IH]; intros i Hle; simpl.
  - reflexivity.
  - destruct (nth_error outs i) as [o|] eqn:Ho.
    + simpl. rewrite IH by lia. simpl.
      now rewrite (skipn_nth_error_cons _ _ Ho).
    + apply nth_error_None in Ho. lia.
Qed.

Lemma getReturnValueTypes_firstn (ins outs : list rtype) (b : bool) :
  getReturnValueTypes (TFunc ins outs) b =
  Returned (firstn (List.length outs - (if b then 1 else 0)) outs).
Proof.
  unfold getReturnValueTypes; simpl.
  destruct (Nat.eqb (List.length outs) 0) eqn:E.
  - apply Nat.eqb_eq in E. destruct outs; [|discriminate]. now destruct b.
  - apply Nat.eqb_neq in E.
    destruct b; rewrite fillTypes_firstn; simpl; try lia; try reflexivity.
    now rewrite Nat.sub_0_r.
Qed.

Lemma hasErrorOut_true_iff (ins outs : list rtype) :
  hasErrorOut (TFunc ins outs) = Returned true <->
  0 < List.length outs /\
  exists o, nth_error outs (List.length outs - 1) = Some o /\
            AssignableTo o errorType = true.
Proof.
  unfold hasErrorOut; simpl.
  destruct (Nat.ltb 0 (List.length outs)) eqn:E.
  - apply Nat.ltb_lt in E.
    destruct (nth_error outs (List.length outs - 1)) as [o|] eqn:Ho; simpl.
    + split.
      * intros H; inversion H. split; [assumption|]. now exists o.
      * intros (_ & o' & Ho' & Ha). inversion Ho'; subst. now rewrite Ha.
    + apply nth_error_None in Ho. lia.
  - apply Nat.ltb_ge in E. split; [discriminate|]. intros (H & _). lia.
Qed.

Section TaskProperties.

Variable W : Type.

(** What a successful [NewTask] gives. *)
Lemma NewTask_Some (cfg : TaskConfig W) (t : Task W) :
  NewTask cfg = Returned (Some t, None) ->
  exists ins outs b,
    fn_type (t_Fn t) = TFunc ins outs /\
    hasErrorOut (TFunc ins outs) = Returned b /\
    t_hasErrorOut t = b /\
    t_ReturnValueTypes t = firstn (List.length outs - (if b then 1 else 0)) outs /\
    t_Name t = cfg_Name cfg /\ t_Cleanup t = cfg_Cleanup cfg /\
    cfg_Fn cfg = Some (t_Fn t).
Proof.
  unfold NewTask. destruct (cfg_Fn cfg) as [fn|]; [|discriminate].
  destruct (fn_type fn) as [| | | | | |ins outs] eqn:Ety; simpl; try discriminate.
  intros H. inv_obind H. inv_obind H.
  rewrite getReturnValueTypes_firstn in Ha0. inversion Ha0; subst a0.
  inversion H; subst t; simpl.
  exists ins, outs, a. repeat split; auto.
Qed.

(** C7. For every task the constructor produces: [hasErrorOut] holds
    exactly when the callable declares at least one output and the last
    one is assignable to [error]; [ReturnValueTypes] has the declared
    output count, less one when [hasErrorOut], and lists the leading
    declared outputs in order. *)
Theorem NewTask_return_value_types (cfg : TaskConfig W) (t : Task W) :
  NewTask cfg = Returned (Some t, None) ->
  exists ins outs,
    fn_type (t_Fn t) = TFunc ins outs /\
    (t_hasErrorOut t = true <->
       0 < List.length outs /\
       exists o, nth_error outs (List.length outs - 1) = Some o /\
                 AssignableTo o errorType = true) /\
    List.length (t_ReturnValueTypes t) =
      List.length outs - (if t_hasErrorOut t then 1 else 0) /\
    t_ReturnValueTypes t = firstn (List.length (t_ReturnValueTypes t)) outs.
Proof.
  intros H. apply NewTask_Some in H.
  destruct H as (ins & outs & b & Hty & Hb & Hf & Hr & _).
  exists ins, outs. split; [assumption|]. split; [|split].
  - rewrite Hf. rewrite <- hasErrorOut_true_iff. rewrite Hb.
    split; intros E; [now rewrite E | now inversion E].
  - rewrite Hr, Hf. rewrite length_firstn. lia.
  - rewrite Hr. rewrite length_firstn. f_equal. lia.
Qed.

End TaskProperties.

Lemma NewTask_return_value_types_witness :
  NewTask (cfgFirst unit) = Returned (Some (taskFirst unit), None) /\
  exists ins outs,
    fn_type (t_Fn (taskFirst unit)) = TFunc ins outs /\
    (t_hasErrorOut (taskFirst unit) = true <->
       0 < List.length outs /\
       exists o, nth_error outs (List.length outs - 1) = Some o /\
                 AssignableTo o errorType = true) /\
    List.length (t_ReturnValueTypes (taskFirst unit)) =
      List.length outs - (if t_hasErrorOut (taskFirst unit) then 1 else 0) /\
    t_ReturnValueTypes (taskFirst unit) =
      firstn (List.length (t_ReturnValueTypes (taskFirst unit))) outs.
Proof.
  split; [reflexivity|].
  apply (@NewTask_return_value_types unit (cfgFirst unit)). reflexivity.
Defined.

(** *** The constructor of chains (chain.go) *)

Section ChainConstruction.

Variable W : Type.

Lemma derefAll_app (l l' : list (option (Task W))) :
  derefAll (l ++ l')%list = (derefAll l ++ derefAll l')%list.
Proof.
  induction l as [|[t|] l IH]; simpl; [reflexivity | now rewrite IH | assumption].
Qed.

Lemma derefAll_cut (l : list (option (Task W))) (i : nat) :
  nth_error l i = Some None ->
  derefAll (firstn i l ++ skipn (S i) l)%list = derefAll l.
Proof.
  intros H.
  rewrite <- (firstn_skipn i l) at 3.
  rewrite (skipn_nth_error_cons _ _ H).
  now rewrite !derefAll_app.
Qed.

Lemma derefAll_dropNilLoop (fuel i : nat) (l : list (option (Task W))) :
  derefAll (dropNilLoop fuel i l) = derefAll l.
Proof.
  revert i l; induction fuel as [|f IH]; intros i l; simpl; [reflexivity|].
  destruct (nth_error l i) as [[t|]|] eqn:E; [apply IH | | reflexivity].
  rewrite IH. now apply derefAll_cut.
Qed.

Lemma cut_at {A} (pre suf : list A) (x : A) :
  (firstn (List.length pre) (pre ++ x :: suf) ++
   skipn (S (List.length pre)) (pre ++ x :: suf))%list = (pre ++ suf)%list.
Proof.
  induction pre as [|a pre IH]; simpl; [reflexivity|].
  f_equal. exact IH.
Qed.

(** The loop leaves no nil entry, and keeps the others in order. *)
Lemma dropNilLoop_spec (fuel : nat) (pre suf : list (option (Task W))) :
  List.length suf <= fuel ->
  Forall (fun x => x <> None) pre ->
  dropNilLoop fuel (List.length pre) (pre ++ suf)%list =
  (pre ++ filter (fun x => match x with Some _ => true | None => false end) suf)%list.
Proof.
  revert pre suf; induction fuel as [|f IH]; intros pre suf Hle Hpre.
  - destruct suf; [reflexivity | simpl in Hle; lia].
  - cbn [dropNilLoop]. rewrite nth_error_app2 by lia. rewrite Nat.sub_diag.
    destruct suf as [|[t|] suf]; cbn [nth_error filter].
    + reflexivity.
    + replace (pre ++ Some t :: suf)%list with ((pre ++ [Some t]) ++ suf)%list
        by now rewrite <- app_assoc.
      replace (S (List.length pre)) with (List.length (pre ++ [Some t])%list)
        by (rewrite length_app; simpl; lia).
      rewrite IH.
      * now rewrite <- app_assoc.
      * simpl in Hle; lia.
      * apply Forall_app; split; [assumption|]. constructor; [discriminate | constructor].
    + rewrite cut_at. apply IH; [simpl in Hle; lia | assumption].
Qed.

Lemma dropNil_derefAll (l : list (option (Task W))) : dropNil l = derefAll l.
Proof. apply derefAll_dropNilLoop. Qed.

Lemma dropNilLoop_no_nil (l : list (option (Task W))) :
  Forall (fun x => x <> None) (dropNilLoop (List.length l) 0 l).
Proof.
  change (dropNilLoop (List.length l) 0 l)
    with (dropNilLoop (List.length l) (List.length (@nil (option (Task W)))) ([] ++ l)%list).
  rewrite dropNilLoop_spec; auto.
  simpl. apply Forall_forall. intros x Hx. apply filter_In in Hx.
  destruct Hx as [_ Hx]. destruct x; [discriminate | discriminate].
Qed.

Lemma derefAll_all_nil (l : list (option (Task W))) :
  Forall (fun x => x = None) l -> derefAll l = [].
Proof.
  induction 1 as [|x l Hx _ IH]; [reflexivity|]. now subst x.
Qed.

(** A successful construction from a non-empty task list. *)
Lemma NewTaskChain_Some (T : rtype) (config : TaskChainConfig W) (tc : TaskChain W) :
  NewTaskChain T config = Returned (Some tc, None) ->
  dropNil (ccfg_Tasks config) <> [] ->
  exists last,
    nth_error (dropNil (ccfg_Tasks config))
              (List.length (dropNil (ccfg_Tasks config)) - 1) = Some last /\
    verifyAdjacent (dropNil (ccfg_Tasks config)) = Returned None /\
    verifyReturnType T last = Returned None /\
    tc = {| tc_Tasks := dropNil (ccfg_Tasks config);
            tc_hasOutput := Nat.ltb 0 (List.length (t_ReturnValueTypes last));
            tc_Cleanup := ccfg_Cleanup config;
            tc_Name := ccfg_Name config |}.
Proof.
  unfold NewTaskChain. intros H Hne.
  destruct (Nat.eqb (List.length (dropNil (ccfg_Tasks config))) 0) eqn:E.
  - apply Nat.eqb_eq in E. destruct (dropNil (ccfg_Tasks config)); [congruence | discriminate].
  - inv_obind H. destruct a as [e|]; [discriminate|].
    inv_obind H. unfold index in Ha0.
    destruct (nth_error _ _) as [last|] eqn:El; [|discriminate].
    inversion Ha0; subst a. inv_obind H.
    destruct a as [e|]; [discriminate|].
    inversion H; subst tc. exists last. auto.
Qed.

(** C9. [verifyReturnType] looks at the raw last declared output of
    the last task, the error slot included: when the last task has an
    error out, construction succeeds only if that last declared output
    (the error type) is assignable to [T].  A chain with result type
    [int] whose last task returns [(int, error)] is refused. *)
Theorem NewTaskChain_checks_error_slot :
  (forall (T : rtype) (config : TaskChainConfig W) (tc : TaskChain W)
          (last : Task W) (ins outs : list rtype),
      NewTaskChain T config = Returned (Some tc, None) ->
      nth_error (dropNil (ccfg_Tasks config))
                (List.length (dropNil (ccfg_Tasks config)) - 1) = Some last ->
      fn_type (t_Fn last) = TFunc ins outs ->
      hasErrorOut (fn_type (t_Fn last)) = Returned true ->
      exists errTyp,
        nth_error outs (List.length outs - 1) = Some errTyp /\
        AssignableTo errTyp errorType = true /\
        AssignableTo errTyp T = true) /\
  (exists e,
      NewTaskChain TInt (mkTaskChainConfig "chain" None [Some (taskFiveNil W)])
      = Returned (None, Some e) /\
      Error e = "failed to create task 'chain': return type error is not compatible to the last output type: int").
Proof.
  split.
  - intros T config tc last ins outs Hnew Hlast Hty Herr.
    apply NewTaskChain_Some in Hnew.
    + destruct Hnew as (last' & Hlast' & _ & Hret & _).
      rewrite Hlast in Hlast'. inversion Hlast'; subst last'.
      rewrite Hty in Herr. apply hasErrorOut_true_iff in Herr.
      destruct Herr as (Hpos & o & Ho & Hoe).
      exists o. repeat split; try assumption.
      unfold verifyReturnType in Hret. rewrite Hty in Hret. simpl in Hret.
      destruct (Nat.eqb (List.length outs) 0) eqn:E.
      * apply Nat.eqb_eq in E. lia.
      * rewrite Ho in Hret. simpl in Hret.
        destruct (AssignableTo o T); [reflexivity | discriminate].
    + intros E. rewrite E in Hlast. discriminate.
  - eexists. split; reflexivity.
Qed.

(** C5. A chain built from a task list that is empty once the nil
    entries are dropped returns the zero value of [T] and no error,
    whatever the context and the arguments (and touches nothing). *)
Theorem Run_empty_chain (T : rtype) (config : TaskChainConfig W)
        (ctx : option (Context W)) (params : list any) (st : state W) :
  Forall (fun t => t = None) (ccfg_Tasks config) ->
  exists tc,
    NewTaskChain T config = Returned (Some tc, None) /\
    Run T tc ctx params st = (Returned (Zero T, None), st).
Proof.
  intros Hnil. unfold NewTaskChain.
  rewrite dropNil_derefAll, (derefAll_all_nil Hnil). simpl.
  eexists. split; reflexivity.
Qed.

End ChainConstruction.

Lemma NewTaskChain_checks_error_slot_witness :
  NewTaskChain errorType (mkTaskChainConfig "chain" None [None; Some (taskFiveNil unit)])
  = Returned (Some (mkTaskChain [taskFiveNil unit] None "chain" true), None) /\
  exists errTyp,
    nth_error [TInt; errorType] 1 = Some errTyp /\
    AssignableTo errTyp errorType = true /\
    AssignableTo errTyp errorType = true.
Proof.
  split; [reflexivity|].
  apply (proj1 (NewTaskChain_checks_error_slot unit) errorType
           (mkTaskChainConfig "chain" None [None; Some (taskFiveNil unit)])
           (mkTaskChain [taskFiveNil unit] None "chain" true)
           (taskFiveNil unit) [] [TInt; errorType]); reflexivity.
Defined.

Lemma Run_empty_chain_witness :
  Forall (fun t : option (Task unit) => t = None) [None; None; None] /\
  exists tc,
    NewTaskChain TStruct0
      (mkTaskChainConfig "" (Some (failingCleanup (W:=unit))) [None; None; None])
    = Returned (Some tc, None) /\
    Run TStruct0 tc None [boxInt 1] (st0 tt) = (Returned (Zero TStruct0, None), st0 tt).
Proof.
  assert (H : Forall (fun t : option (Task unit) => t = None) [None; None; None])
    by (repeat constructor).
  split; [exact H|].
  apply (@Run_empty_chain unit TStruct0
           (mkTaskChainConfig "" (Some (failingCleanup (W:=unit))) [None; None; None])
           None [boxInt 1] (st0 tt)).
  exact H.
Defined.

(** *** The verifier (verify.go) *)

Lemma initLoop_nil_param (ins outs : list rtype) (ps : list any) :
  forall k i : nat,
    nth_error ps i = Some None ->
    k + List.length ps <= List.length ins ->
    (forall j p, j < i -> nth_error ps j = Some p ->
        exists t a, TypeOf p = Some t /\ nth_error ins (k + j) = Some a /\
                    AssignableTo t a = true) ->
    initLoop (TFunc ins outs) k ps = Panicked nilDeref.
Proof.
  induction ps as [|p ps IH]; intros k i Hi Hlen Hpre.
  - destruct i; discriminate.
  - simpl in Hlen. cbn [initLoop In].
    destruct (nth_error ins k) as [a|] eqn:Ea.
    2:{ apply nth_error_None in Ea. lia. }
    destruct i as [|i].
    + simpl in Hi. inversion Hi; subst p. reflexivity.
    + destruct (Hpre 0 p) as (t & a' & Ht & Ha' & Hass); [lia | reflexivity |].
      rewrite Nat.add_0_r, Ea in Ha'. inversion Ha'; subst a'.
      cbn [obind]. rewrite Ht. cbn [AssignableTo_nilable obind]. rewrite Hass.
      cbn [negb]. apply (IH (S k) i); [exact Hi | lia |].
      intros j q Hj Hq. destruct (Hpre (S j) q) as (t' & b & ? & Hb & ?); [lia | exact Hq |].
      exists t', b. repeat split; try assumption.
      now replace (S k + j) with (k + S j) by lia.
Qed.

Section VerifierProperties.

Variable W : Type.

(** C10. [Run] can fail to return: on a non-empty chain called with
    the right number of arguments, one of them nil (and the ones before
    it acceptable), [verifyInitialParams] asks the nil [reflect.Type]
    of that argument whether it is assignable, which panics; no error
    is returned and no clean-up runs. *)
Theorem Run_nil_argument_panics (T : rtype) (tc : TaskChain W)
        (ctx : option (Context W)) (params : list any) (st : state W)
        (first : Task W) (rest : list (Task W)) (ins outs : list rtype) (i : nat) :
  tc_Tasks tc = first :: rest ->
  fn_type (t_Fn first) = TFunc ins outs ->
  List.length params = List.length ins ->
  nth_error params i = Some None ->
  (forall j p, j < i -> nth_error params j = Some p ->
      exists t a, TypeOf p = Some t /\ nth_error ins j = Some a /\
                  AssignableTo t a = true) ->
  verifyInitialParams (fn_type (t_Fn first)) params = Panicked nilDeref /\
  Run T tc ctx params st = (Panicked nilDeref, st).
Proof.
  intros Htasks Hty Hlen Hnil Hpre.
  assert (Hv : verifyInitialParams (fn_type (t_Fn first)) params = Panicked nilDeref).
  { unfold verifyInitialParams. rewrite Hty. cbn [NumIn obind].
    rewrite Hlen, Nat.eqb_refl. cbn [negb].
    apply (@initLoop_nil_param ins outs params 0 i); [exact Hnil | lia | exact Hpre]. }
  split; [exact Hv|].
  unfold Run. rewrite Htasks. unfold bind, lift. now rewrite Hv.
Qed.

End VerifierProperties.

(** *** Concrete tasks through the constructors and [Run] *)

Section ConcreteChains.

Variable W : Type.

(** C1 (the code departs from it).  [verifyTaskCompatibility] asks
    whether the consumer's input type is assignable to the producer's
    output type, the reverse of what its own message says.  A producer
    [func() int] followed by a consumer [func(any)] is refused although
    [int] is assignable to [interface {}]; a producer [func() any]
    followed by a consumer [func(int)] is accepted although
    [interface {}] is not assignable to [int], and the chain then
    panics inside [Call]. *)
Theorem verifyTaskCompatibility_reversed :
  (NewTask (mkTaskConfig "p" None (Some (fnGiveInt W))) = Returned (Some (taskGiveInt W), None) /\
   NewTask (mkTaskConfig "c" None (Some (fnTakeAny W))) = Returned (Some (taskTakeAny W), None) /\
   AssignableTo TInt anyType = true /\
   verifyTaskCompatibility (taskGiveInt W) (taskTakeAny W) =
     Returned (Some (joinError
       [IncompatibleFunctionSignatureErr;
        errorString "between p and c: int is not assignable to interface {}"]))) /\
  (NewTask (mkTaskConfig "p" None (Some (fnGiveAny W))) = Returned (Some (taskGiveAny W), None) /\
   NewTask (mkTaskConfig "c" None (Some (fnTakeInt W))) = Returned (Some (taskTakeInt W), None) /\
   AssignableTo anyType TInt = false /\
   verifyTaskCompatibility (taskGiveAny W) (taskTakeInt W) = Returned None /\
   NewTaskChain anyType
     (mkTaskChainConfig "chain" None [Some (taskGiveAny W); Some (taskTakeInt W)]) =
     Returned (Some (mkTaskChain [taskGiveAny W; taskTakeInt W] None "chain" false), None) /\
   forall w,
     Run anyType (mkTaskChain [taskGiveAny W; taskTakeInt W] None "chain" false)
         None [] (st0 w) =
     (Panicked "reflect: Call using a value of the wrong type",
      mkState w [EvFn "p"])).
Proof.
  repeat split; reflexivity.
Qed.

(** C2 (the code departs from it).  With result type [error] and a
    single task [func() (int, error)], construction succeeds, because
    [verifyReturnType] compares the error slot with [T]; the run
    executes the task, is left with one value of type [int], which is
    not assignable to [error], and the cast at the exit panics. *)
Theorem Run_exit_cast_unguarded :
  NewTask (mkTaskConfig "five" None (Some (fnFiveNil W))) =
    Returned (Some (taskFiveNil W), None) /\
  NewTaskChain errorType (mkTaskChainConfig "chain" None [Some (taskFiveNil W)]) =
    Returned (Some (mkTaskChain [taskFiveNil W] None "chain" true), None) /\
  AssignableTo TInt errorType = false /\
  forall w,
    Task_Run (taskFiveNil W) [] (st0 w) =
      (Returned ([mkValue TInt (boxInt 5)], None), mkState w [EvFn "five"]) /\
    Run errorType (mkTaskChain [taskFiveNil W] None "chain" true) None [] (st0 w) =
      (Panicked "interface conversion: wrong dynamic type", mkState w [EvFn "five"]).
Proof.
  repeat split; reflexivity.
Qed.

(** C8. The chain of the parsing task and the multiplying task, with
    result type [int], run on ["10"], returns [(100, nil)]. *)
Theorem Run_parse_then_times_ten :
  NewTask (cfgFirst W) = Returned (Some (taskFirst W), None) /\
  NewTask (cfgSecond W) = Returned (Some (taskSecond W), None) /\
  NewTaskChain TInt
    (mkTaskChainConfig "test_chain" None [Some (taskFirst W); Some (taskSecond W)]) =
    Returned (Some (mkTaskChain [taskFirst W; taskSecond W] None "test_chain" true), None) /\
  forall w,
    Run TInt (mkTaskChain [taskFirst W; taskSecond W] None "test_chain" true)
        (Some (Background W)) [boxString "10"] (st0 w) =
    (Returned (boxInt 100, None), mkState w [EvFn "first"; EvFn "second"]).
Proof.
  repeat split; reflexivity.
Qed.

End ConcreteChains.

Lemma Run_nil_argument_panics_witness :
  Run TInt (mkTaskChain [taskSecond unit] None "chain" true)
      (Some (Background unit)) [None] (st0 tt) = (Panicked nilDeref, st0 tt).
Proof.
  refine (proj2 (@Run_nil_argument_panics unit TInt
           (mkTaskChain [taskSecond unit] None "chain" true)
           (Some (Background unit)) [None] (st0 tt)
           (taskSecond unit) [] [TInt] [TInt] 0 _ _ _ _ _)).
  - reflexivity.
  - reflexivity.
  - reflexivity.
  - reflexivity.
  - intros j p Hj. lia.
Defined.

(** *** Errors *)

Lemma error_eqb_refl (e : error) : Errors.eqb e e = true.
Proof.
  induction e as [s|msg e IH|es IH|t] using error_tree_ind; simpl.
  - apply String.eqb_refl.
  - now rewrite String.eqb_refl, IH.
  - induction IH as [|x r Hx _ IHr]; [reflexivity|]. now rewrite Hx, IHr.
  - apply String.eqb_refl.
Qed.

Lemma Is_refl (e : error) : Is e e = true.
Proof. destruct e; cbn [Is]; now rewrite error_eqb_refl. Qed.

Lemma Is_join_second (a b : error) : Is (joinError [a; b]) b = true.
Proof.
  cbn [Is]. rewrite (Is_refl b). now rewrite !orb_true_r.
Qed.

Lemma Is_join_first (a b : error) : Is (joinError [a; b]) a = true.
Proof.
  cbn [Is]. rewrite (Is_refl a). now rewrite orb_true_r.
Qed.

(** *** Running a task (task.go) *)

Lemma wrapOuts_Returned (outs : list rtype) :
  forall (rs : list any) (vs : list Value),
    wrapOuts outs rs = Returned vs ->
    List.length vs = List.length outs /\
    Forall (fun v => exists t x, v = mkValue t x) vs.
Proof.
  induction outs as [|o outs IH]; intros [|r rs] vs H; simpl in H; try discriminate.
  - inversion H. split; [reflexivity | constructor].
  - destruct (conforms o r); [|discriminate].
    inv_obind H. inversion H; subst vs.
    destruct (IH _ _ Ha) as [Hl Hf]. split; [simpl; now rewrite Hl|].
    constructor; [now exists o, r | assumption].
Qed.

Lemma last_nth_error {A} (l : list A) (d : A) :
  l <> [] -> nth_error l (List.length l - 1) = Some (List.last l d).
Proof.
  intros Hne. destruct (exists_last Hne) as (l' & a & ->).
  rewrite nth_error_last. now rewrite last_last.
Qed.

Lemma assertError_cases (x : any) :
  (exists e, assertError x = (Some e, true)) \/ assertError x = (None, false).
Proof.
  unfold assertError. destruct x as [[t d]|]; [|now right].
  destruct (implements errorType t); [left; eauto | now right].
Qed.

Section RunProperties.

Variable W : Type.

Lemma TaskChain_doCleanup_eq (tc : TaskChain W) (v : any) (err : option error)
      (st : state W) :
  TaskChain_doCleanup tc v err st =
  (Returned (v, cleanupError (tc_Cleanup tc) err st),
   cleanupState (tc_Cleanup tc) (EvChainCleanup (tc_Name tc)) st).
Proof.
  unfold TaskChain_doCleanup, cleanupError, cleanupState.
  destruct (tc_Cleanup tc) as [f|]; [|reflexivity].
  unfold bind, log, effect, ret; simpl.
  destruct (f (world st)) as [[e|] w]; reflexivity.
Qed.

Lemma Task_doCleanup_eq (t : Task W) (v : list Value) (err : option error)
      (st : state W) :
  Task_doCleanup t v err st =
  (Returned (v, cleanupError (t_Cleanup t) err st),
   cleanupState (t_Cleanup t) (EvTaskCleanup (t_Name t)) st).
Proof.
  unfold Task_doCleanup, cleanupError, cleanupState.
  destruct (t_Cleanup t) as [f|]; [|reflexivity].
  unfold bind, log, effect, ret; simpl.
  destruct (f (world st)) as [[e|] w]; reflexivity.
Qed.

(** [Call] enters the body at most once, and exactly once when it
    returns. *)
Lemma Call_inv (label : string) (fn : Callable W) (args : list Value)
      (st st1 : state W) (o : outcome (list Value)) :
  Call label fn args st = (o, st1) ->
  (trace st1 = trace st /\ (forall r, o <> Returned r)) \/
  (trace st1 = (trace st ++ [EvFn label])%list /\
   forall r, o = Returned r ->
     exists ins outs, fn_type fn = TFunc ins outs /\
       List.length r = List.length outs /\
       Forall (fun v => exists t x, v = mkValue t x) r).
Proof.
  unfold Call.
  destruct (fn_type fn) as [| | | | | |ins outs];
    try (intros H; inversion H; left; split; [reflexivity | discriminate]).
  destruct (fn_body fn) as [body|];
    [|intros H; inversion H; left; split; [reflexivity | discriminate]].
  destruct (negb _);
    [intros H; inversion H; left; split; [reflexivity | discriminate]|].
  unfold bind, lift, log, effect.
  destruct (checkArgs ins args);
    [|intros H; inversion H; left; split; [reflexivity | discriminate]].
  simpl. destruct (body (map content args) (world st)) as [rs w].
  intros H; inversion H; subst. right. split; [reflexivity|].
  intros r Hr. exists ins, outs. split; [reflexivity|].
  now apply wrapOuts_Returned with (rs := rs).
Qed.

Lemma cleanupState_trace (cu : option (W -> option error * W)) (ev : event)
      (st : state W) :
  trace (cleanupState cu ev st) =
  (trace st ++ match cu with Some _ => [ev] | None => [] end)%list.
Proof. destruct cu; simpl; [reflexivity | now rewrite app_nil_r]. Qed.

(** A task adds only its own events to the trace. *)
Lemma Task_Run_trace (t : Task W) (params : list Value) (st st' : state W)
      (o : outcome (list Value * option error)) :
  Task_Run t params st = (o, st') ->
  exists tr, trace st' = (trace st ++ tr)%list /\ Forall isTaskEvent tr.
Proof.
  unfold Task_Run, bind.
  destruct (Call (t_Name t) (t_Fn t) params st) as [[r|msg] st1] eqn:EC.
  - assert (Hc : exists tr1, trace st1 = (trace st ++ tr1)%list /\ Forall isTaskEvent tr1).
    { destruct (Call_inv _ _ _ _ EC) as [[Ht _]|[Ht _]].
      - exists []. rewrite app_nil_r. split; [assumption | constructor].
      - exists [EvFn (t_Name t)]. split; [assumption | repeat constructor]. }
    destruct Hc as (tr1 & Ht1 & Hf1).
    assert (Hd : forall v err r' st2, Task_doCleanup t v err st1 = (r', st2) ->
               exists tr, trace st2 = (trace st ++ tr)%list /\ Forall isTaskEvent tr).
    { intros v err r' st2 Hd. rewrite Task_doCleanup_eq in Hd. inversion Hd; subst.
      rewrite cleanupState_trace, Ht1, <- app_assoc. eexists; split; [reflexivity|].
      apply Forall_app; split; [assumption|].
      destruct (t_Cleanup t); repeat constructor. }
    destruct (t_hasErrorOut t).
    + unfold lift. destruct (index r (List.length r - 1)) as [lastv|msg].
      * destruct (Interface_ lastv) as [x|msg].
        -- destruct (assertError x) as [[e|] [|]]; apply Hd.
        -- intros H; inversion H; subst. now exists tr1.
      * intros H; inversion H; subst. now exists tr1.
    + apply Hd.
  - intros H; inversion H; subst.
    destruct (Call_inv _ _ _ _ EC) as [[Ht _]|[Ht _]].
    + exists []. rewrite app_nil_r. split; [assumption | constructor].
    + exists [EvFn (t_Name t)]. split; [assumption | repeat constructor].
Qed.

(** What [Task.Run] does once the body has returned its results. *)
Lemma Task_Run_after_body (cfg : TaskConfig W) (t : Task W) (params : list Value)
      (st st1 : state W) (r : list Value) :
  NewTask cfg = Returned (Some t, None) ->
  Call (t_Name t) (t_Fn t) params st = (Returned r, st1) ->
  trace st1 = (trace st ++ [EvFn (t_Name t)])%list /\
  Task_Run t params st =
    (Returned (match signalledError t r with
               | Some _ => []
               | None => firstn (List.length (t_ReturnValueTypes t)) r
               end,
               cleanupError (t_Cleanup t) (signalledError t r) st1),
     cleanupState (t_Cleanup t) (EvTaskCleanup (t_Name t)) st1).
Proof.
  intros Hnew HC.
  destruct (NewTask_Some _ Hnew) as (ins & outs & b & Hty & Hb & Hf & Hr & _).
  destruct (Call_inv _ _ _ _ HC) as [[_ Hno]|[Ht Hret]]; [now elim (Hno r)|].
  split; [exact Ht|].
  destruct (Hret r eq_refl) as (ins' & outs' & Hty' & Hlen & Hval).
  rewrite Hty in Hty'. inversion Hty'; subst ins' outs'.
  unfold Task_Run, bind. rewrite HC. unfold signalledError. rewrite Hr, Hf.
  destruct b.
  - apply hasErrorOut_true_iff in Hb. destruct Hb as [Hpos _].
    assert (Hne : r <> []) by (intros ->; simpl in Hlen; lia).
    unfold lift, index. rewrite (last_nth_error Invalid Hne).
    assert (Hin : List.In (List.last r Invalid) r).
    { destruct (exists_last Hne) as (l' & a & ->). rewrite last_last.
      apply in_or_app. right. now left. }
    destruct (proj1 (Forall_forall _ _) Hval _ Hin) as (ty & x & Hx).
    rewrite Hx. cbn [Interface_ content].
    rewrite length_firstn, <- Hlen.
    replace (Nat.min (List.length r - 1) (List.length r)) with (List.length r - 1) by lia.
    destruct (assertError_cases x) as [[e He]|He]; rewrite He; cbn [fst];
      apply Task_doCleanup_eq.
  - rewrite Nat.sub_0_r, firstn_all, <- Hlen, firstn_all.
    apply Task_doCleanup_eq.
Qed.

End RunProperties.

(** *** Running a chain (chain.go) *)

Section ChainRun.

Variable W : Type.

(** Every normal return of the loop of [Run] goes through the chain's
    clean-up, entered in a state [st1] that differs from the initial
    one by task events only; the value handed to it is the zero value
    unless the error handed to it is nil. *)
Lemma runTasks_Returned (T : rtype) (tc : TaskChain W) (ctx : option (Context W))
      (ts : list (Task W)) :
  forall (i : nat) (cur : list Value) (st st' : state W) (r : any * option error),
    runTasks T tc ctx i ts cur st = (Returned r, st') ->
    exists st1 tr v err,
      trace st1 = (trace st ++ tr)%list /\ Forall isTaskEvent tr /\
      st' = cleanupState (tc_Cleanup tc) (EvChainCleanup (tc_Name tc)) st1 /\
      r = (v, cleanupError (tc_Cleanup tc) err st1) /\
      (v = Zero T \/ err = None).
Proof.
  induction ts as [|t rest IH]; intros i cur st st' r H; cbn [runTasks] in H.
  - destruct (Nat.eqb (List.length cur) 0).
    + rewrite TaskChain_doCleanup_eq in H. inversion H; subst.
      exists st, [], (Zero T), None. rewrite app_nil_r. repeat split; auto.
    + unfold bind, lift in H.
      destruct (index cur (List.length cur - 1)) as [lastv|]; [|discriminate].
      destruct (Interface_ lastv) as [x|]; [|discriminate].
      destruct (typeAssert x T) as [v|]; [|discriminate].
      rewrite TaskChain_doCleanup_eq in H. inversion H; subst.
      exists st, [], v, None. rewrite app_nil_r. repeat split; auto.
  - unfold bind in H at 1.
    assert (Hc : exists ce, ctxErr ctx st = (Returned ce, st)).
    { destruct ctx as [c|]; unfold ctxErr, observe, ret; eauto. }
    destruct Hc as (ce & Hc). rewrite Hc in H.
    destruct ce as [e|].
    + rewrite TaskChain_doCleanup_eq in H. inversion H; subst.
      exists st, [], (Zero T), (Some e). rewrite app_nil_r. repeat split; auto.
    + unfold bind in H.
      destruct (Task_Run t cur st) as [[[results [err|]]|msg] st2] eqn:ER;
        [| |discriminate];
        destruct (Task_Run_trace _ _ _ ER) as (tr2 & Htr2 & Hf2).
      * rewrite TaskChain_doCleanup_eq in H. inversion H; subst.
        exists st2, tr2, (Zero T), (Some (Errorf_w ("error running task " ++ itoa i ++ ": ") err)).
        repeat split; auto.
      * apply IH in H. destruct H as (st1 & tr & v & err & Ht & Hf & Hst & Hr & Hv).
        exists st1, (tr2 ++ tr)%list, v, err.
        rewrite Ht, Htr2, app_assoc. repeat split; auto.
        apply Forall_app; auto.
Qed.

Lemma Run_Returned (T : rtype) (tc : TaskChain W) (ctx : option (Context W))
      (params : list any) (st st' : state W) (r : any * option error) :
  Run T tc ctx params st = (Returned r, st') ->
  exists st1 tr v err,
    trace st1 = (trace st ++ tr)%list /\ Forall isTaskEvent tr /\
    st' = cleanupState (tc_Cleanup tc) (EvChainCleanup (tc_Name tc)) st1 /\
    r = (v, cleanupError (tc_Cleanup tc) err st1) /\
    (v = Zero T \/ err = None).
Proof.
  unfold Run. destruct (tc_Tasks tc) as [|first rest] eqn:Ets.
  - rewrite TaskChain_doCleanup_eq. intros H; inversion H; subst.
    exists st, [], (Zero T), None. rewrite app_nil_r. repeat split; auto.
  - unfold bind, lift.
    destruct (verifyInitialParams (fn_type (t_Fn first)) params) as [[e|]|];
      [| |discriminate].
    + rewrite TaskChain_doCleanup_eq. intros H; inversion H; subst.
      eexists st, [], (Zero T), (Some _). rewrite app_nil_r. repeat split; auto.
    + apply runTasks_Returned.
Qed.

(** A run that has arrived at the head of iteration [k] continues as
    the loop from there. *)
Lemma Run_LoopAt (T : rtype) (tc : TaskChain W) (ctx : option (Context W))
      (params : list any) (s0 : state W) (k : nat) (cur : list Value) (st : state W) :
  LoopAt tc ctx params s0 k cur st ->
  Run T tc ctx params s0 = runTasks T tc ctx k (skipn k (tc_Tasks tc)) cur st.
Proof.
  induction 1 as [first rest Hts Hv | k cur st t results st' _ IH Hk Hctx Hrun].
  - unfold Run. rewrite Hts. unfold bind, lift. now rewrite Hv.
  - rewrite IH. rewrite (skipn_nth_error_cons _ _ Hk). cbn [runTasks].
    unfold bind at 1. rewrite Hctx. unfold bind at 1. now rewrite Hrun.
Qed.

(** C4. When the loop of [Run] arrives at task [k] and the (non-nil)
    context already carries an error [e], the run ends there: the only
    thing that still happens is the chain's clean-up, so neither task
    [k] nor any later task is invoked, and [Run] returns the zero
    value of [T] with the context's error ([e] itself, or, if the
    clean-up fails as well, the join of the clean-up's error and
    [e]). *)
Theorem Run_cancelled_before_task (T : rtype) (tc : TaskChain W) (c : Context W)
        (params : list any) (s0 : state W)
        (k : nat) (cur : list Value) (st : state W) (t : Task W) (e : error) :
  LoopAt tc (Some c) params s0 k cur st ->
  nth_error (tc_Tasks tc) k = Some t ->
  ctx_Err c (world st) = Some e ->
  exists err st',
    Run T tc (Some c) params s0 = (Returned (Zero T, Some err), st') /\
    Is err e = true /\
    st' = cleanupState (tc_Cleanup tc) (EvChainCleanup (tc_Name tc)) st /\
    (exists tail, trace st' = (trace st ++ tail)%list /\
       forall name, ~ List.In (EvFn name) tail /\ ~ List.In (EvTaskCleanup name) tail) /\
    (err = e \/ exists ce, err = joinError [ce; e]).
Proof.
  intros Hat Hk He.
  rewrite (Run_LoopAt T Hat), (skipn_nth_error_cons _ _ Hk). cbn [runTasks].
  unfold bind, ctxErr, observe. rewrite He, TaskChain_doCleanup_eq.
  assert (Herr : exists err, cleanupError (tc_Cleanup tc) (Some e) st = Some err /\
                   Is err e = true /\ (err = e \/ exists ce, err = joinError [ce; e])).
  { unfold cleanupError. destruct (tc_Cleanup tc) as [f|].
    - destruct (fst (f (world st))) as [ce|].
      + exists (joinError [ce; e]). split; [reflexivity|].
        split; [apply Is_join_second | right; now exists ce].
      + exists e. split; [reflexivity|]. split; [apply Is_refl | now left].
    - exists e. split; [reflexivity|]. split; [apply Is_refl | now left]. }
  destruct Herr as (err & Herr & His & Hshape).
  exists err, (cleanupState (tc_Cleanup tc) (EvChainCleanup (tc_Name tc)) st).
  rewrite Herr. repeat split; auto.
  rewrite cleanupState_trace. eexists; split; [reflexivity|].
  intros name. destruct (tc_Cleanup tc); simpl; split; intros H; intuition discriminate.
Qed.



End ChainRun.

(** *** What [verifyTaskCompatibility] checks, in general *)

Lemma append_assoc (a b c : string) : (a ++ b) ++ c = a ++ (b ++ c).
Proof. induction a as [|ch a IH]; simpl; [reflexivity | now rewrite IH]. Qed.

Lemma Contains_here (pre sub post : string) : Contains (pre ++ sub ++ post) sub.
Proof. now exists pre, post. Qed.

Lemma Contains_after (pre s sub : string) : Contains s sub -> Contains (pre ++ s) sub.
Proof.
  intros (p & q & ->). exists (pre ++ p), q. now rewrite append_assoc.
Qed.

Lemma Contains_end (pre sub : string) : Contains (pre ++ sub) sub.
Proof.
  exists pre, "". f_equal. induction sub as [|c s IH]; simpl; [reflexivity | now rewrite <- IH].
Qed.

Section CompatibilityProperties.

Variable W : Type.
Variables output input : Task W.
Variables ins outs : list rtype.
Hypothesis Hinput : fn_type (t_Fn input) = TFunc ins outs.

Lemma compatLoop_inv (types : list rtype) :
  forall i : nat,
    i + List.length types <= List.length ins ->
    match compatLoop output input i types with
    | Returned None =>
        forall j o a, nth_error types j = Some o -> nth_error ins (i + j) = Some a ->
                      AssignableTo a o = true
    | Returned (Some e) =>
        exists j o a, nth_error types j = Some o /\ nth_error ins (i + j) = Some a /\
                      AssignableTo a o = false /\ e = typeMismatchErr output input o a
    | Panicked _ => False
    end.
Proof.
  induction types as [|typ rest IH]; intros i Hle; cbn [compatLoop].
  - intros [|j] o a H; discriminate.
  - simpl in Hle. rewrite Hinput. cbn [In].
    destruct (nth_error ins i) as [inTyp|] eqn:Ei.
    2:{ apply nth_error_None in Ei. lia. }
    cbn [obind]. destruct (AssignableTo inTyp typ) eqn:Ea; cbn [negb].
    + specialize (IH (S i)).
      destruct (compatLoop output input (S i) rest) as [[e|]|msg].
      * destruct IH as (j & o & a & Hj & Ha & Hna & He); [lia|].
        exists (S j), o, a. repeat split; auto.
        now replace (i + S j) with (S i + j) by lia.
      * intros [|j] o a Hj Ha.
        -- simpl in Hj. inversion Hj; subst o.
           rewrite Nat.add_0_r, Ei in Ha. now inversion Ha; subst a.
        -- apply (IH ltac:(lia) j o a Hj).
           now replace (S i + j) with (i + S j) by lia.
      * apply IH. lia.
    + exists 0, typ, inTyp. rewrite Nat.add_0_r. repeat split; auto.
Qed.

(** X2. With matching counts, the verifier accepts exactly when every
    consumer input type is assignable to the producer output type at
    the same position. *)
Lemma verifyTaskCompatibility_accepts_iff :
  List.length (t_ReturnValueTypes output) = List.length ins ->
  verifyTaskCompatibility output input = Returned None <->
  forall i o a, nth_error (t_ReturnValueTypes output) i = Some o ->
                nth_error ins i = Some a ->
                AssignableTo a o = true.
Proof.
  intros Hlen. unfold verifyTaskCompatibility. rewrite Hinput. cbn [NumIn obind].
  rewrite Hlen, Nat.eqb_refl. cbn [negb].
  pose proof (@compatLoop_inv (t_ReturnValueTypes output) 0 ltac:(simpl; lia)) as H.
  destruct (compatLoop output input 0 (t_ReturnValueTypes output)) as [[e|]|msg].
  - destruct H as (j & o & a & Hj & Ha & Hna & _). split; [discriminate|].
    intros Hall. rewrite (Hall j o a Hj Ha) in Hna. discriminate.
  - split; [intros _; exact H | reflexivity].
  - contradiction.
Qed.

(** X3. A type mismatch is reported with the sentinel error joined in, and
    a message that contains both type names and both task names. *)
Lemma verifyTaskCompatibility_type_mismatch (e : error) :
  List.length (t_ReturnValueTypes output) = List.length ins ->
  verifyTaskCompatibility output input = Returned (Some e) ->
  exists i o a,
    nth_error (t_ReturnValueTypes output) i = Some o /\
    nth_error ins i = Some a /\
    AssignableTo a o = false /\
    Is e IncompatibleFunctionSignatureErr = true /\
    Contains (Error e) (TypeString o) /\ Contains (Error e) (TypeString a) /\
    Contains (Error e) (t_Name output) /\ Contains (Error e) (t_Name input).
Proof.
  intros Hlen. unfold verifyTaskCompatibility. rewrite Hinput. cbn [NumIn obind].
  rewrite Hlen, Nat.eqb_refl. cbn [negb].
  pose proof (@compatLoop_inv (t_ReturnValueTypes output) 0 ltac:(simpl; lia)) as H.
  intros He. rewrite He in H. destruct H as (j & o & a & Hj & Ha & Hna & ->).
  exists j, o, a.
  split; [exact Hj|]. split; [exact Ha|]. split; [exact Hna|].
  split; [apply Is_join_first|].
  unfold typeMismatchErr, invalidParamTypeFmt. cbn [Error map joinLines].
  repeat split; apply Contains_after; apply (Contains_after (String "010" "")).
  - do 4 apply Contains_after. apply Contains_here.
  - do 6 apply Contains_after. apply Contains_end.
  - apply Contains_here.
  - do 2 apply Contains_after. apply Contains_here.
Qed.

End CompatibilityProperties.

(** *** The theorems at concrete chains *)



Lemma Run_cancelled_before_task_witness :
  exists err st',
    Run anyType (mkTaskChain [taskCancel; taskNop] None "test_chain" false)
        (Some cancelCtx) [] (st0 false)
    = (Returned (Zero anyType, Some err), st') /\
    Is err Canceled = true /\
    st' = mkState true [EvFn "t1"; EvTaskCleanup "t1"] /\
    (exists tail, trace st' = ([EvFn "t1"; EvTaskCleanup "t1"] ++ tail)%list /\
       forall name, ~ List.In (EvFn name) tail /\ ~ List.In (EvTaskCleanup name) tail) /\
    (err = Canceled \/ exists ce, err = joinError [ce; Canceled]).
Proof.
  refine (@Run_cancelled_before_task bool anyType
            (mkTaskChain [taskCancel; taskNop] None "test_chain" false)
            cancelCtx [] (st0 false) 1 []
            (mkState true [EvFn "t1"; EvTaskCleanup "t1"]) taskNop Canceled _ _ _).
  - refine (@LoopAt_next bool _ _ _ _ 0 [] (st0 false) taskCancel [] _ _ _ _ _).
    + refine (@LoopAt_first bool _ _ [] _ taskCancel [taskNop] _ _); reflexivity.
    + reflexivity.
    + reflexivity.
    + reflexivity.
  - reflexivity.
  - reflexivity.
Defined.


(* ================================================================== *)
(** ** Further properties of the package *)

(** *** Messages *)

Lemma Contains_before (s post sub : string) :
  Contains s sub -> Contains (s ++ post) sub.
Proof.
  intros (p & q & ->). exists p, (q ++ post). now rewrite !append_assoc.
Qed.

Lemma Contains_start (sub post : string) : Contains (sub ++ post) sub.
Proof. now exists "", post. Qed.

(** [errors.Is] looks through [%w] and through joins. *)
Lemma Is_wrap (msg : string) (e target : error) :
  Is e target = true -> Is (wrapError msg e) target = true.
Proof. intros H. cbn [Is]. rewrite H. apply orb_true_r. Qed.

Lemma Is_join_tail (a b target : error) :
  Is b target = true -> Is (joinError [a; b]) target = true.
Proof. intros H. cbn [Is]. rewrite H. now rewrite !orb_true_r. Qed.

(** *** NewTask *)

Section NewTaskOutcome.

Variable W : Type.


End NewTaskOutcome.

(** *** The verifier, continued *)

Section VerifierOutcomes.

Variable W : Type.

Lemma verifyTaskCompatibility_count_ne (output input : Task W)
      (ins outs : list rtype) :
  fn_type (t_Fn input) = TFunc ins outs ->
  List.length (t_ReturnValueTypes output) <> List.length ins ->
  verifyTaskCompatibility output input =
  Returned (Some (joinError
    [IncompatibleFunctionSignatureErr;
     errorString (invalidParamCountFmt
                    (t_Name output) (List.length (t_ReturnValueTypes output))
                    (t_Name input) (List.length ins))])).
Proof.
  intros Hty Hne. unfold verifyTaskCompatibility. rewrite Hty. cbn [NumIn obind].
  apply Nat.eqb_neq in Hne. now rewrite Hne.
Qed.

(** X4. A count mismatch between the producer's non-error outputs and the
    consumer's inputs is reported with the sentinel error joined in,
    and a message that carries both counts and both task names. *)
Theorem verifyTaskCompatibility_count_mismatch (output input : Task W)
        (ins outs : list rtype) :
  fn_type (t_Fn input) = TFunc ins outs ->
  List.length (t_ReturnValueTypes output) <> List.length ins ->
  exists e,
    verifyTaskCompatibility output input = Returned (Some e) /\
    Is e IncompatibleFunctionSignatureErr = true /\
    Contains (Error e) (itoa (List.length (t_ReturnValueTypes output))) /\
    Contains (Error e) (itoa (List.length ins)) /\
    Contains (Error e) (t_Name output) /\
    Contains (Error e) (t_Name input).
Proof.
  intros Hty Hne. rewrite (@verifyTaskCompatibility_count_ne _ _ ins outs Hty Hne).
  eexists. split; [reflexivity|]. split; [apply Is_join_first|].
  unfold invalidParamCountFmt. cbn [Error map joinLines].
  repeat split; apply Contains_after; apply (Contains_after (String "010" "")).
  - apply Contains_after. apply Contains_here.
  - do 5 apply Contains_after. apply Contains_here.
  - apply Contains_start.
  - do 3 apply Contains_after. apply Contains_here.
Qed.

(** Whatever [verifyTaskCompatibility] objects to, the error it
    returns [errors.Is] the sentinel; and it does not panic on a
    consumer of function type, because the count check comes before
    the indexing. *)
Lemma verifyTaskCompatibility_sentinel (output input : Task W)
        (ins outs : list rtype) :
  fn_type (t_Fn input) = TFunc ins outs ->
  verifyTaskCompatibility output input = Returned None \/
  exists e, verifyTaskCompatibility output input = Returned (Some e) /\
            Is e IncompatibleFunctionSignatureErr = true.
Proof.
  intros Hty.
  destruct (Nat.eq_dec (List.length (t_ReturnValueTypes output)) (List.length ins))
    as [Heq|Hne].
  - unfold verifyTaskCompatibility. rewrite Hty. cbn [NumIn obind].
    rewrite Heq, Nat.eqb_refl. cbn [negb].
    pose proof (@compatLoop_inv W output input ins outs Hty
                  (t_ReturnValueTypes output) 0 ltac:(simpl; lia)) as H.
    destruct (compatLoop output input 0 (t_ReturnValueTypes output)) as [[e|]|msg].
    + destruct H as (j & o & a & _ & _ & _ & ->). right. eexists. split; [reflexivity|].
      apply Is_join_first.
    + now left.
    + contradiction.
  - right. rewrite (@verifyTaskCompatibility_count_ne _ _ ins outs Hty Hne).
    eexists. split; [reflexivity | apply Is_join_first].
Qed.

End VerifierOutcomes.

(** The loop over the initial arguments, when none of them is nil. *)
Lemma initLoop_inv (ins outs : list rtype) (ps : list any) :
  forall i : nat,
    i + List.length ps <= List.length ins ->
    Forall (fun p => p <> None) ps ->
    match initLoop (TFunc ins outs) i ps with
    | Returned None =>
        forall j t d a, nth_error ps j = Some (Some (t, d)) ->
                        nth_error ins (i + j) = Some a ->
                        AssignableTo t a = true
    | Returned (Some e) =>
        exists j t d a,
          nth_error ps j = Some (Some (t, d)) /\ nth_error ins (i + j) = Some a /\
          AssignableTo t a = false /\
          (forall j' t' d' a', j' < j -> nth_error ps j' = Some (Some (t', d')) ->
                               nth_error ins (i + j') = Some a' ->
                               AssignableTo t' a' = true) /\
          e = errorString
                ("invalid input params: expected " ++ TypeString a ++ " at " ++
                 itoa (i + j + 1) ++ " but got " ++ TypeString t)
    | Panicked _ => False
    end.
Proof.
  induction ps as [|p ps IH]; intros i Hle Hnn; cbn [initLoop].
  - intros [|j] t d a H; discriminate.
  - simpl in Hle. inversion Hnn as [|p' ps' Hp Hps]; subst.
    destruct p as [[t0 d0]|]; [|congruence].
    cbn [In]. destruct (nth_error ins i) as [a0|] eqn:Ei.
    2:{ apply nth_error_None in Ei. lia. }
    cbn [obind TypeOf option_map fst AssignableTo_nilable].
    destruct (AssignableTo t0 a0) eqn:Ea; cbn [negb].
    + specialize (IH (S i) ltac:(lia) Hps).
      destruct (initLoop (TFunc ins outs) (S i) ps) as [[e|]|msg].
      * destruct IH as (j & t & d & a & Hj & Ha & Hna & Hmin & He).
        exists (S j), t, d, a. split; [exact Hj|].
        split; [now replace (i + S j) with (S i + j) by lia|].
        split; [exact Hna|]. split.
        -- intros [|j'] t' d' a' Hlt Hj' Ha'.
           ++ simpl in Hj'. inversion Hj'; subst.
              rewrite Nat.add_0_r, Ei in Ha'. now inversion Ha'; subst.
           ++ apply (Hmin j' t' d' a'); [lia | exact Hj'|].
              now replace (S i + j') with (i + S j') by lia.
        -- rewrite He. now replace (S i + j + 1) with (i + S j + 1) by lia.
      * intros [|j] t d a Hj Ha.
        -- simpl in Hj. inversion Hj; subst.
           rewrite Nat.add_0_r, Ei in Ha. now inversion Ha; subst.
        -- apply (IH j t d a Hj). now replace (S i + j) with (i + S j) by lia.
      * exact IH.
    + exists 0, t0, d0, a0. rewrite !Nat.add_0_r.
      split; [reflexivity|]. split; [exact Ei|]. split; [exact Ea|].
      split; [intros j' ? ? ? Hlt; lia | reflexivity].
Qed.

(** X5. [verifyInitialParams] on arguments none of which is nil: it
    accepts exactly when the count is the declared one and every
    argument's dynamic type is assignable to the parameter type at its
    position (argument to parameter, the direction [Call] needs). *)
Theorem verifyInitialParams_accepts_iff (ins outs : list rtype) (params : list any) :
  Forall (fun p => p <> None) params ->
  verifyInitialParams (TFunc ins outs) params = Returned None <->
  List.length params = List.length ins /\
  forall j t d a, nth_error params j = Some (Some (t, d)) ->
                  nth_error ins j = Some a ->
                  AssignableTo t a = true.
Proof.
  intros Hnn. unfold verifyInitialParams. cbn [NumIn obind].
  destruct (Nat.eqb (List.length params) (List.length ins)) eqn:E; cbn [negb].
  - apply Nat.eqb_eq in E.
    pose proof (@initLoop_inv ins outs params 0 ltac:(simpl; lia) Hnn) as H.
    destruct (initLoop (TFunc ins outs) 0 params) as [[e|]|msg].
    + destruct H as (j & t & d & a & Hj & Ha & Hna & _). split; [discriminate|].
      intros [_ Hall]. rewrite (Hall j t d a Hj Ha) in Hna. discriminate.
    + split; [intros _; split; [exact E | exact H] | reflexivity].
    + contradiction.
  - apply Nat.eqb_neq in E. split; [discriminate | intros [H _]; contradiction].
Qed.

(** X6. With the right count and no nil argument, a refusal is about the
    first argument that does not fit, and its message carries the
    expected type, the 1-based position and the actual type. *)
Theorem verifyInitialParams_first_mismatch (ins outs : list rtype)
        (params : list any) (e : error) :
  Forall (fun p => p <> None) params ->
  List.length params = List.length ins ->
  verifyInitialParams (TFunc ins outs) params = Returned (Some e) ->
  exists j t d a,
    nth_error params j = Some (Some (t, d)) /\ nth_error ins j = Some a /\
    AssignableTo t a = false /\
    (forall j' t' d' a', j' < j -> nth_error params j' = Some (Some (t', d')) ->
                         nth_error ins j' = Some a' -> AssignableTo t' a' = true) /\
    Contains (Error e) (TypeString a) /\
    Contains (Error e) (itoa (j + 1)) /\
    Contains (Error e) (TypeString t).
Proof.
  intros Hnn Hlen. unfold verifyInitialParams. cbn [NumIn obind].
  rewrite Hlen, Nat.eqb_refl. cbn [negb].
  pose proof (@initLoop_inv ins outs params 0 ltac:(simpl; lia) Hnn) as H.
  intros He. rewrite He in H.
  destruct H as (j & t & d & a & Hj & Ha & Hna & Hmin & ->).
  exists j, t, d, a. repeat split; auto.
  - cbn [Error]. apply Contains_here.
  - cbn [Error]. do 2 apply Contains_after. apply Contains_here.
  - cbn [Error]. do 4 apply Contains_after. apply Contains_end.
Qed.

(** *** The constructor of chains, continued *)

Section ChainConstructionOutcomes.

Variable W : Type.

Lemma map_Some_derefAll (l : list (option (Task W))) :
  map Some (derefAll l) = filter (@notNil W) l.
Proof.
  induction l as [|[t|] l IH]; simpl; [reflexivity | now rewrite IH | exact IH].
Qed.

Lemma NewTaskChain_tasks_eq (T : rtype) (config : TaskChainConfig W) (tc : TaskChain W) :
  NewTaskChain T config = Returned (Some tc, None) ->
  tc_Tasks tc = dropNil (ccfg_Tasks config).
Proof.
  intros H. destruct (dropNil (ccfg_Tasks config)) as [|t ts] eqn:E.
  - unfold NewTaskChain in H. rewrite E in H. simpl in H. now inversion H.
  - rewrite <- E. apply NewTaskChain_Some in H; [|rewrite E; discriminate].
    destruct H as (last & _ & _ & _ & ->). reflexivity.
Qed.

(** X7. The nil-removing loop leaves exactly the non-nil entries, in their
    order, and they are the tasks of the chain that is built. *)
Theorem NewTaskChain_keeps_non_nil (T : rtype) (config : TaskChainConfig W)
        (tc : TaskChain W) :
  NewTaskChain T config = Returned (Some tc, None) ->
  dropNilLoop (List.length (ccfg_Tasks config)) 0 (ccfg_Tasks config) =
    filter (@notNil W) (ccfg_Tasks config) /\
  map Some (tc_Tasks tc) = filter (@notNil W) (ccfg_Tasks config).
Proof.
  intros H. split.
  - change (dropNilLoop (List.length (ccfg_Tasks config)) 0 (ccfg_Tasks config))
      with (dropNilLoop (List.length (ccfg_Tasks config))
              (List.length (@nil (option (Task W)))) ([] ++ ccfg_Tasks config)%list).
    now rewrite dropNilLoop_spec.
  - rewrite (NewTaskChain_tasks_eq _ _ H), dropNil_derefAll. apply map_Some_derefAll.
Qed.

Lemma verifyAdjacent_None_iff (ts : list (Task W)) :
  verifyAdjacent ts = Returned None <->
  forall i prev curr, nth_error ts i = Some prev -> nth_error ts (S i) = Some curr ->
                      verifyTaskCompatibility prev curr = Returned None.
Proof.
  induction ts as [|a ts IH]; [split; [intros _ [|i] ? ? H; discriminate | reflexivity]|].
  destruct ts as [|b ts].
  - split; [|reflexivity]. intros _ [|i] prev curr H1 H2; [discriminate|].
    destruct i; discriminate.
  - cbn [verifyAdjacent]. split.
    + intros H. destruct (verifyTaskCompatibility a b) as [[e|]|msg] eqn:Eab;
        cbn [obind] in H; try discriminate.
      intros [|i] prev curr H1 H2.
      * simpl in H1, H2. inversion H1; inversion H2; subst. exact Eab.
      * apply (proj1 IH H i prev curr H1 H2).
    + intros Hall. rewrite (Hall 0 a b eq_refl eq_refl). cbn [obind].
      apply IH. intros i prev curr H1 H2. apply (Hall (S i) prev curr H1 H2).
Qed.

Lemma verifyAdjacent_outcome (ts : list (Task W)) :
  (forall t, List.In t ts -> exists ins outs, fn_type (t_Fn t) = TFunc ins outs) ->
  verifyAdjacent ts = Returned None \/
  exists e, verifyAdjacent ts = Returned (Some e) /\
            Is e IncompatibleFunctionSignatureErr = true.
Proof.
  induction ts as [|a ts IH]; intros Hf; [now left|].
  destruct ts as [|b ts]; [now left|].
  cbn [verifyAdjacent].
  destruct (Hf b ltac:(simpl; auto)) as (ins & outs & Hb).
  destruct (@verifyTaskCompatibility_sentinel W a b ins outs Hb) as [H|(e & H & His)]; rewrite H; cbn [obind].
  - apply IH. intros t Ht. apply Hf. now right.
  - right. now exists e.
Qed.


(** X9. When some adjacent pair is refused, construction fails with an
    error that [errors.Is] the sentinel and carries the chain's name
    (tasks being function values, as [NewTask] makes them). *)
Theorem NewTaskChain_incompatible_pair (T : rtype) (config : TaskChainConfig W)
        (i : nat) (prev curr : Task W) (e : error) :
  (forall t, List.In t (dropNil (ccfg_Tasks config)) ->
             exists ins outs, fn_type (t_Fn t) = TFunc ins outs) ->
  nth_error (dropNil (ccfg_Tasks config)) i = Some prev ->
  nth_error (dropNil (ccfg_Tasks config)) (S i) = Some curr ->
  verifyTaskCompatibility prev curr = Returned (Some e) ->
  exists err,
    NewTaskChain T config = Returned (None, Some err) /\
    Is err IncompatibleFunctionSignatureErr = true /\
    Contains (Error err) (ccfg_Name config).
Proof.
  intros Hf Hp Hc Hv. unfold NewTaskChain.
  destruct (Nat.eqb (List.length (dropNil (ccfg_Tasks config))) 0) eqn:E.
  { apply Nat.eqb_eq in E. destruct (dropNil (ccfg_Tasks config)); [|discriminate].
    destruct i; discriminate. }
  destruct (verifyAdjacent_outcome _ Hf) as [H|(e' & H & His)].
  - rewrite (proj1 (verifyAdjacent_None_iff _) H i prev curr Hp Hc) in Hv. discriminate.
  - rewrite H. cbn [obind]. eexists. split; [reflexivity|].
    split; [now apply Is_wrap|].
    unfold Errorf_w. cbn [Error]. apply Contains_before. apply Contains_here.
Qed.

(** X10. When the adjacent pairs pass and the last declared output of the
    last task is not assignable to [T], construction fails with a
    message that carries both type names and the chain's name. *)
Theorem NewTaskChain_return_type_mismatch (T : rtype) (config : TaskChainConfig W)
        (last : Task W) (ins outs : list rtype) (o : rtype) :
  nth_error (dropNil (ccfg_Tasks config))
            (List.length (dropNil (ccfg_Tasks config)) - 1) = Some last ->
  (forall i prev curr,
      nth_error (dropNil (ccfg_Tasks config)) i = Some prev ->
      nth_error (dropNil (ccfg_Tasks config)) (S i) = Some curr ->
      verifyTaskCompatibility prev curr = Returned None) ->
  fn_type (t_Fn last) = TFunc ins outs ->
  nth_error outs (List.length outs - 1) = Some o ->
  AssignableTo o T = false ->
  exists err,
    NewTaskChain T config = Returned (None, Some err) /\
    Contains (Error err) (TypeString o) /\
    Contains (Error err) (TypeString T) /\
    Contains (Error err) (ccfg_Name config).
Proof.
  intros Hlast Hadj Hty Ho Hna. unfold NewTaskChain.
  destruct (Nat.eqb (List.length (dropNil (ccfg_Tasks config))) 0) eqn:E.
  { apply Nat.eqb_eq in E. destruct (dropNil (ccfg_Tasks config)); discriminate. }
  rewrite (proj2 (verifyAdjacent_None_iff _) Hadj). cbn [obind].
  unfold index. rewrite Hlast. cbn [obind].
  unfold verifyReturnType. rewrite Hty. cbn [NumOut obind].
  destruct (Nat.eqb (List.length outs) 0) eqn:E0.
  { apply Nat.eqb_eq in E0. destruct outs; discriminate. }
  cbn [Out]. rewrite Ho. cbn [obind]. rewrite Hna. cbn [negb].
  eexists. split; [reflexivity|]. unfold Errorf_w. cbn [Error].
  repeat split.
  - apply Contains_after. apply Contains_here.
  - apply Contains_after. do 2 apply Contains_after. apply Contains_end.
  - apply Contains_before. apply Contains_here.
Qed.

End ChainConstructionOutcomes.

(** *** Running a task, continued *)

Lemma wrapOuts_types (outs : list rtype) :
  forall (rs : list any) (vs : list Value),
    wrapOuts outs rs = Returned vs -> map staticType vs = map Some outs.
Proof.
  induction outs as [|o outs IH]; intros [|r rs] vs H; simpl in H; try discriminate.
  - now inversion H.
  - destruct (conforms o r); [|discriminate].
    inv_obind H. inversion H; subst vs. simpl. now rewrite (IH _ _ Ha).
Qed.

Section TaskRunOutcomes.

Variable W : Type.

Lemma Call_Returned_types (label : string) (fn : Callable W) (args : list Value)
      (st st1 : state W) (r : list Value) (ins outs : list rtype) :
  Call label fn args st = (Returned r, st1) ->
  fn_type fn = TFunc ins outs ->
  map staticType r = map Some outs.
Proof.
  unfold Call. intros H Hty. rewrite Hty in H.
  destruct (fn_body fn) as [body|]; [|discriminate].
  destruct (negb _); [discriminate|].
  unfold bind, lift, log, effect in H.
  destruct (checkArgs ins args); [|discriminate].
  simpl in H. destruct (body (map content args) (world st)) as [rs w].
  inversion H as [[Hw Hst]]. now apply wrapOuts_types with (rs := rs).
Qed.

(** A returning [Task.Run] has been through the body and, when there
    is a hook, through the clean-up, once each and in that order. *)
Lemma Task_Run_Returned_trace (t : Task W) (params : list Value) (st st' : state W)
      (r : list Value * option error) :
  Task_Run t params st = (Returned r, st') ->
  trace st' = (trace st ++ taskEvents t)%list.
Proof.
  unfold Task_Run, bind.
  destruct (Call (t_Name t) (t_Fn t) params st) as [[rs|msg] st1] eqn:EC; [|discriminate].
  destruct (Call_inv _ _ _ _ EC) as [[_ Hno]|[Ht _]]; [now elim (Hno rs)|].
  assert (Hd : forall v err, Task_doCleanup t v err st1 = (Returned r, st') ->
               trace st' = (trace st ++ taskEvents t)%list).
  { intros v err Hd. rewrite Task_doCleanup_eq in Hd. inversion Hd; subst.
    rewrite cleanupState_trace, Ht, <- app_assoc. reflexivity. }
  destruct (t_hasErrorOut t); [|apply Hd].
  unfold lift. destruct (index rs (List.length rs - 1)) as [lastv|]; [|discriminate].
  destruct (Interface_ lastv) as [x|]; [|discriminate].
  destruct (assertError x) as [[e|] [|]]; apply Hd.
Qed.

(** X12. What a constructed task hands on has the types computed at
    construction: without error, the values returned have exactly the
    static types [ReturnValueTypes]; with an error signalled by the
    body, no value is returned. *)
Theorem Task_Run_result_types (cfg : TaskConfig W) (t : Task W)
        (params : list Value) (st st' : state W)
        (v : list Value) (err : option error) :
  NewTask cfg = Returned (Some t, None) ->
  Task_Run t params st = (Returned (v, err), st') ->
  (err = None -> map staticType v = map Some (t_ReturnValueTypes t)) /\
  (v = [] \/ map staticType v = map Some (t_ReturnValueTypes t)).
Proof.
  intros Hnew Hrun.
  destruct (Call (t_Name t) (t_Fn t) params st) as [[r|msg] st1] eqn:EC.
  2:{ unfold Task_Run, bind in Hrun. rewrite EC in Hrun. discriminate. }
  destruct (@Task_Run_after_body W cfg t params st st1 r Hnew EC) as [_ Heq].
  rewrite Heq in Hrun. injection Hrun as Hv Herr Hst. subst v err.
  destruct (NewTask_Some _ Hnew) as (ins & outs & b & Hty & _ & _ & Hr & _).
  pose proof (Call_Returned_types _ _ _ _ EC Hty) as Htypes.
  assert (Hok : map staticType (firstn (List.length (t_ReturnValueTypes t)) r) =
                map Some (t_ReturnValueTypes t)).
  { rewrite <- firstn_map, Htypes, firstn_map. f_equal.
    rewrite Hr at 2. rewrite Hr, length_firstn. f_equal. lia. }
  destruct (signalledError t r) as [e|] eqn:Es.
  - split; [|now left]. intros H.
    unfold cleanupError in H. destruct (t_Cleanup t) as [f|]; [|discriminate].
    destruct (fst (f (world st1))); discriminate.
  - split; [intros _; exact Hok | right; exact Hok].
Qed.

End TaskRunOutcomes.

(** *** Running a chain, continued *)

Section ChainRunOutcomes.

Variable W : Type.

(** What the clean-up step makes of a non-nil error [w]: [w] itself,
    or the hook's error joined in front of it; either way [errors.Is]
    and the message still find what [w] carried. *)
Lemma cleanupError_Some (cu : option (W -> option error * W)) (w : error)
      (st : state W) :
  exists err,
    cleanupError cu (Some w) st = Some err /\
    (err = w \/ exists ce, err = joinError [ce; w]) /\
    (forall x, Is w x = true -> Is err x = true) /\
    (forall s, Contains (Error w) s -> Contains (Error err) s).
Proof.
  unfold cleanupError. destruct cu as [f|].
  - destruct (fst (f (world st))) as [ce|].
    + exists (joinError [ce; w]). split; [reflexivity|]. split; [right; now exists ce|].
      split; [intros x; apply Is_join_tail|].
      intros s Hs. cbn [Error map joinLines]. apply Contains_after.
      now apply (Contains_after (String "010" "")).
    + exists w. repeat split; auto.
  - exists w. repeat split; auto.
Qed.

(** X14. Refused arguments: [Run] invokes no task, runs the chain's
    clean-up and returns the zero value with an error that wraps the
    verifier's ([errors.Is] finds it) and whose message carries the
    chain's name and the verifier's message. *)
Theorem Run_refused_arguments (T : rtype) (tc : TaskChain W)
        (ctx : option (Context W)) (params : list any) (st : state W)
        (first : Task W) (rest : list (Task W)) (e : error) :
  tc_Tasks tc = first :: rest ->
  verifyInitialParams (fn_type (t_Fn first)) params = Returned (Some e) ->
  exists err,
    Run T tc ctx params st =
      (Returned (Zero T, Some err),
       cleanupState (tc_Cleanup tc) (EvChainCleanup (tc_Name tc)) st) /\
    Is err e = true /\
    Contains (Error err) (tc_Name tc) /\
    Contains (Error err) (Error e).
Proof.
  intros Hts Hv. unfold Run. rewrite Hts. unfold bind, lift. rewrite Hv.
  rewrite TaskChain_doCleanup_eq.
  destruct (cleanupError_Some (tc_Cleanup tc)
              (Errorf_w ("error running " ++ tc_Name tc ++ ": ") e) st)
    as (err & Herr & _ & His & Hc).
  exists err. rewrite Herr. split; [reflexivity|]. split; [|split].
  - apply His. apply Is_wrap, Is_refl.
  - apply Hc. unfold Errorf_w. cbn [Error]. apply Contains_before, Contains_here.
  - apply Hc. unfold Errorf_w. cbn [Error]. apply Contains_end.
Qed.

(** X15. A failing task ends the run: when task [k] returns an error, no
    later task is invoked, the chain's clean-up runs, and [Run]
    returns the zero value with an error that wraps the task's
    ([errors.Is] finds it) and names the index [k]. *)
Theorem Run_task_error (T : rtype) (tc : TaskChain W) (ctx : option (Context W))
        (params : list any) (s0 : state W)
        (k : nat) (cur : list Value) (st st1 : state W) (t : Task W)
        (results : list Value) (e : error) :
  LoopAt tc ctx params s0 k cur st ->
  nth_error (tc_Tasks tc) k = Some t ->
  ctxErr ctx st = (Returned None, st) ->
  Task_Run t cur st = (Returned (results, Some e), st1) ->
  exists err,
    Run T tc ctx params s0 =
      (Returned (Zero T, Some err),
       cleanupState (tc_Cleanup tc) (EvChainCleanup (tc_Name tc)) st1) /\
    Is err e = true /\
    Contains (Error err) ("error running task " ++ itoa k ++ ": ") /\
    Contains (Error err) (Error e).
Proof.
  intros Hat Hk Hctx Hrun.
  rewrite (Run_LoopAt T Hat), (skipn_nth_error_cons _ _ Hk). cbn [runTasks].
  unfold bind at 1. rewrite Hctx. unfold bind at 1. rewrite Hrun.
  rewrite TaskChain_doCleanup_eq.
  destruct (cleanupError_Some (tc_Cleanup tc)
              (Errorf_w ("error running task " ++ itoa k ++ ": ") e) st1)
    as (err & Herr & _ & His & Hc).
  exists err. rewrite Herr. split; [reflexivity|]. split; [|split].
  - apply His. apply Is_wrap, Is_refl.
  - apply Hc. unfold Errorf_w. cbn [Error]. apply Contains_start.
  - apply Hc. unfold Errorf_w. cbn [Error]. apply Contains_end.
Qed.

(** X16. After the last task: with no value left [Run] returns the zero
    value; otherwise it returns the content of the last value, when
    that is non-nil and of a dynamic type assignable to [T].  The
    error is nil unless the chain's clean-up fails. *)
Theorem Run_after_last_task (T : rtype) (tc : TaskChain W) (ctx : option (Context W))
        (params : list any) (s0 : state W) (cur : list Value) (st : state W) :
  LoopAt tc ctx params s0 (List.length (tc_Tasks tc)) cur st ->
  (cur = [] ->
   Run T tc ctx params s0 =
     (Returned (Zero T, cleanupError (tc_Cleanup tc) None st),
      cleanupState (tc_Cleanup tc) (EvChainCleanup (tc_Name tc)) st)) /\
  (forall ty t d,
      cur <> [] -> List.last cur Invalid = mkValue ty (Some (t, d)) ->
      AssignableTo t T = true ->
      Run T tc ctx params s0 =
        (Returned (Some (t, d), cleanupError (tc_Cleanup tc) None st),
         cleanupState (tc_Cleanup tc) (EvChainCleanup (tc_Name tc)) st)).
Proof.
  intros Hat. rewrite (Run_LoopAt T Hat), skipn_all. cbn [runTasks]. split.
  - intros ->. simpl. apply TaskChain_doCleanup_eq.
  - intros ty t d Hne Hlast Hass.
    destruct (Nat.eqb (List.length cur) 0) eqn:E.
    { apply Nat.eqb_eq in E. destruct cur; [congruence | discriminate]. }
    unfold bind, lift, index. rewrite (last_nth_error Invalid Hne), Hlast.
    cbn [Interface_ typeAssert]. rewrite Hass. apply TaskChain_doCleanup_eq.
Qed.

(** X17. A nil context is never cancelled: [Run] behaves with it as with a
    context whose [Err] is always nil. *)
Theorem Run_nil_context (T : rtype) (tc : TaskChain W) (c : Context W)
        (params : list any) (st : state W) :
  (forall w, ctx_Err c w = None) ->
  Run T tc (Some c) params st = Run T tc None params st.
Proof.
  intros Hc.
  assert (Hloop : forall ts i cur s,
             runTasks T tc (Some c) i ts cur s = runTasks T tc None i ts cur s).
  { induction ts as [|t ts IH]; intros i cur s; cbn [runTasks]; [reflexivity|].
    unfold bind at 1 3. unfold ctxErr, observe, ret. rewrite Hc.
    unfold bind. destruct (Task_Run t cur s) as [[[res [e|]]|msg] s1];
      [reflexivity | apply IH | reflexivity]. }
  unfold Run. destruct (tc_Tasks tc) as [|first rest]; [reflexivity|].
  unfold bind. destruct (lift _ st) as [[[e|]|msg] s1]; [reflexivity | apply Hloop | reflexivity].
Qed.

(** X18. The chain's clean-up is not deferred: when [Run] panics, the hook
    has not been invoked. *)
Theorem Run_panic_skips_cleanup (T : rtype) (tc : TaskChain W)
        (ctx : option (Context W)) (params : list any) (st st' : state W)
        (msg : string) :
  Run T tc ctx params st = (Panicked msg, st') ->
  exists tr, trace st' = (trace st ++ tr)%list /\ Forall isTaskEvent tr.
Proof.
  assert (Hloop : forall ts i cur s,
             runTasks T tc ctx i ts cur s = (Panicked msg, st') ->
             exists tr, trace st' = (trace s ++ tr)%list /\ Forall isTaskEvent tr).
  { induction ts as [|t ts IH]; intros i cur s H; cbn [runTasks] in H.
    - destruct (Nat.eqb (List.length cur) 0).
      + rewrite TaskChain_doCleanup_eq in H. discriminate.
      + unfold bind, lift in H.
        destruct (index cur (List.length cur - 1)) as [lastv|].
        2:{ inversion H; subst. exists []. rewrite app_nil_r. split; [reflexivity | constructor]. }
        destruct (Interface_ lastv) as [x|].
        2:{ inversion H; subst. exists []. rewrite app_nil_r. split; [reflexivity | constructor]. }
        destruct (typeAssert x T) as [v|].
        2:{ inversion H; subst. exists []. rewrite app_nil_r. split; [reflexivity | constructor]. }
        rewrite TaskChain_doCleanup_eq in H. discriminate.
    - unfold bind in H at 1.
      assert (Hc : exists ce, ctxErr ctx s = (Returned ce, s)).
      { destruct ctx as [c|]; unfold ctxErr, observe, ret; eauto. }
      destruct Hc as (ce & Hc). rewrite Hc in H. destruct ce as [e|].
      + rewrite TaskChain_doCleanup_eq in H. discriminate.
      + unfold bind in H.
        destruct (Task_Run t cur s) as [[[res [e|]]|m] s1] eqn:ER;
          destruct (Task_Run_trace _ _ _ ER) as (tr1 & Ht1 & Hf1).
        * rewrite TaskChain_doCleanup_eq in H. discriminate.
        * apply IH in H. destruct H as (tr & Ht & Hf).
          exists (tr1 ++ tr)%list. rewrite Ht, Ht1, app_assoc.
          split; [reflexivity | now apply Forall_app].
        * inversion H; subst. now exists tr1. }
  unfold Run. destruct (tc_Tasks tc) as [|first rest].
  - rewrite TaskChain_doCleanup_eq. discriminate.
  - unfold bind, lift.
    destruct (verifyInitialParams (fn_type (t_Fn first)) params) as [[e|]|m].
    + rewrite TaskChain_doCleanup_eq. discriminate.
    + apply Hloop.
    + intros H; inversion H; subst. exists []. rewrite app_nil_r.
      split; [reflexivity | constructor].
Qed.

Lemma cleanupError_None (cu : option (W -> option error * W)) (err : option error)
      (st : state W) :
  cleanupError cu err st = None -> err = None.
Proof.
  unfold cleanupError. destruct cu as [f|]; [|auto].
  destruct (fst (f (world st))); [|auto]. destruct err; discriminate.
Qed.

(** X19. Tasks run in order, each at most once: when [Run] returns, the
    trace has grown by the events of the first [k] tasks, in order,
    followed by the chain's clean-up; and a nil error tells that every
    task ran. *)
Theorem Run_trace_in_order (T : rtype) (tc : TaskChain W) (ctx : option (Context W))
        (params : list any) (st st' : state W) (r : any * option error) :
  Run T tc ctx params st = (Returned r, st') ->
  exists k,
    k <= List.length (tc_Tasks tc) /\
    trace st' =
      (trace st ++ flat_map (@taskEvents W) (firstn k (tc_Tasks tc)) ++
       match tc_Cleanup tc with
       | Some _ => [EvChainCleanup (tc_Name tc)]
       | None => []
       end)%list /\
    (snd r = None -> k = List.length (tc_Tasks tc)).
Proof.
  assert (Hloop : forall ts i cur s,
             runTasks T tc ctx i ts cur s = (Returned r, st') ->
             exists k, k <= List.length ts /\
               trace st' =
                 (trace s ++ flat_map (@taskEvents W) (firstn k ts) ++
                  match tc_Cleanup tc with
                  | Some _ => [EvChainCleanup (tc_Name tc)]
                  | None => []
                  end)%list /\
               (snd r = None -> k = List.length ts)).
  { induction ts as [|t ts IH]; intros i cur s H; cbn [runTasks] in H.
    - exists 0. split; [simpl; lia|]. split; [|reflexivity]. simpl.
      destruct (Nat.eqb (List.length cur) 0).
      + rewrite TaskChain_doCleanup_eq in H. inversion H; subst.
        apply cleanupState_trace.
      + unfold bind, lift in H.
        destruct (index cur (List.length cur - 1)) as [lastv|]; [|discriminate].
        destruct (Interface_ lastv) as [x|]; [|discriminate].
        destruct (typeAssert x T) as [v|]; [|discriminate].
        rewrite TaskChain_doCleanup_eq in H. inversion H; subst.
        apply cleanupState_trace.
    - unfold bind in H at 1.
      assert (Hc : exists ce, ctxErr ctx s = (Returned ce, s)).
      { destruct ctx as [c|]; unfold ctxErr, observe, ret; eauto. }
      destruct Hc as (ce & Hc). rewrite Hc in H. destruct ce as [e|].
      + rewrite TaskChain_doCleanup_eq in H. inversion H; subst.
        exists 0. split; [simpl; lia|]. split; [apply cleanupState_trace|].
        simpl. intros Hn. apply cleanupError_None in Hn. discriminate.
      + unfold bind in H.
        destruct (Task_Run t cur s) as [[[res [e|]]|m] s1] eqn:ER; [| |discriminate];
          pose proof (Task_Run_Returned_trace _ _ _ ER) as Ht1.
        * rewrite TaskChain_doCleanup_eq in H. inversion H; subst.
          exists 1. split; [simpl; lia|]. split.
          -- rewrite cleanupState_trace, Ht1. simpl. rewrite app_nil_r.
             now rewrite <- app_assoc.
          -- simpl. intros Hn. apply cleanupError_None in Hn. discriminate.
        * apply IH in H. destruct H as (k & Hk & Ht & Hall).
          exists (S k). split; [simpl; lia|]. split.
          -- rewrite Ht, Ht1. simpl. now rewrite <- !app_assoc.
          -- intros Hn. simpl. f_equal. now apply Hall. }
  unfold Run. destruct (tc_Tasks tc) as [|first rest] eqn:Ets.
  - rewrite TaskChain_doCleanup_eq. intros H; inversion H; subst.
    exists 0. split; [simpl; lia|]. split; [apply cleanupState_trace | reflexivity].
  - unfold bind, lift.
    destruct (verifyInitialParams (fn_type (t_Fn first)) params) as [[e|]|m];
      [| |discriminate].
    + rewrite TaskChain_doCleanup_eq. intros H; inversion H; subst.
      exists 0. split; [simpl; lia|]. split; [apply cleanupState_trace|].
      simpl. intros Hn. apply cleanupError_None in Hn. discriminate.
    + apply Hloop.
Qed.

End ChainRunOutcomes.

(** *** The further properties at concrete tasks and chains *)

Lemma verifyTaskCompatibility_count_mismatch_witness :
  exists e,
    verifyTaskCompatibility (taskTakeAny unit) (taskSecond unit) = Returned (Some e) /\
    Is e IncompatibleFunctionSignatureErr = true /\
    Contains (Error e) (itoa 0) /\ Contains (Error e) (itoa 1) /\
    Contains (Error e) "c" /\ Contains (Error e) "second".
Proof.
  refine (@verifyTaskCompatibility_count_mismatch unit
            (taskTakeAny unit) (taskSecond unit) [TInt] [TInt] _ _).
  - reflexivity.
  - simpl. lia.
Defined.

Lemma verifyTaskCompatibility_accepts_iff_witness :
  verifyTaskCompatibility (taskFirst unit) (taskSecond unit) = Returned None <->
  forall i o a, nth_error [TInt] i = Some o -> nth_error [TInt] i = Some a ->
                AssignableTo a o = true.
Proof.
  refine (@verifyTaskCompatibility_accepts_iff unit
            (taskFirst unit) (taskSecond unit) [TInt] [TInt] _ _); reflexivity.
Defined.

Lemma verifyTaskCompatibility_type_mismatch_witness :
  exists i o a,
    nth_error [TInt] i = Some o /\ nth_error [anyType] i = Some a /\
    AssignableTo a o = false /\
    Is (typeMismatchErr (taskGiveInt unit) (taskTakeAny unit) TInt anyType)
       IncompatibleFunctionSignatureErr = true /\
    Contains (Error (typeMismatchErr (taskGiveInt unit) (taskTakeAny unit) TInt anyType))
             (TypeString o) /\
    Contains (Error (typeMismatchErr (taskGiveInt unit) (taskTakeAny unit) TInt anyType))
             (TypeString a) /\
    Contains (Error (typeMismatchErr (taskGiveInt unit) (taskTakeAny unit) TInt anyType)) "p" /\
    Contains (Error (typeMismatchErr (taskGiveInt unit) (taskTakeAny unit) TInt anyType)) "c".
Proof.
  refine (@verifyTaskCompatibility_type_mismatch unit
            (taskGiveInt unit) (taskTakeAny unit) [anyType] [] _
            (typeMismatchErr (taskGiveInt unit) (taskTakeAny unit) TInt anyType) _ _);
    reflexivity.
Defined.

Lemma verifyInitialParams_accepts_iff_witness :
  verifyInitialParams (TFunc [TString] [TInt; errorType]) [boxString "10"] = Returned None <->
  List.length [boxString "10"] = List.length [TString] /\
  forall j t d a, nth_error [boxString "10"] j = Some (Some (t, d)) ->
                  nth_error [TString] j = Some a ->
                  AssignableTo t a = true.
Proof.
  refine (@verifyInitialParams_accepts_iff [TString] [TInt; errorType] [boxString "10"] _).
  repeat constructor; discriminate.
Defined.

Lemma verifyInitialParams_first_mismatch_witness :
  exists j t d a,
    nth_error [boxInt 1; boxString "2"; boxInt 3] j = Some (Some (t, d)) /\
    nth_error [TInt; TInt; TInt] j = Some a /\
    AssignableTo t a = false /\
    (forall j' t' d' a', j' < j ->
        nth_error [boxInt 1; boxString "2"; boxInt 3] j' = Some (Some (t', d')) ->
        nth_error [TInt; TInt; TInt] j' = Some a' -> AssignableTo t' a' = true) /\
    Contains "invalid input params: expected int at 2 but got string" (TypeString a) /\
    Contains "invalid input params: expected int at 2 but got string" (itoa (j + 1)) /\
    Contains "invalid input params: expected int at 2 but got string" (TypeString t).
Proof.
  refine (@verifyInitialParams_first_mismatch [TInt; TInt; TInt] []
            [boxInt 1; boxString "2"; boxInt 3]
            (errorString "invalid input params: expected int at 2 but got string") _ _ _).
  - repeat constructor; discriminate.
  - reflexivity.
  - reflexivity.
Defined.

Lemma NewTaskChain_keeps_non_nil_witness :
  dropNilLoop 4 0 (ccfg_Tasks cfgParseTimes) =
    [Some (taskFirst unit); Some (taskSecond unit)] /\
  map Some (tc_Tasks chainParseTimes) = [Some (taskFirst unit); Some (taskSecond unit)].
Proof.
  refine (@NewTaskChain_keeps_non_nil unit TInt cfgParseTimes chainParseTimes _).
  reflexivity.
Defined.


Lemma NewTaskChain_incompatible_pair_witness :
  exists err,
    NewTaskChain anyType
      (mkTaskChainConfig "chain" None [Some (taskGiveInt unit); Some (taskTakeAny unit)])
    = Returned (None, Some err) /\
    Is err IncompatibleFunctionSignatureErr = true /\
    Contains (Error err) "chain".
Proof.
  refine (@NewTaskChain_incompatible_pair unit anyType
            (mkTaskChainConfig "chain" None [Some (taskGiveInt unit); Some (taskTakeAny unit)])
            0 (taskGiveInt unit) (taskTakeAny unit)
            (typeMismatchErr (taskGiveInt unit) (taskTakeAny unit) TInt anyType) _ _ _ _).
  - intros t [<-|[<-|[]]]; simpl; eauto.
  - reflexivity.
  - reflexivity.
  - reflexivity.
Defined.

Lemma NewTaskChain_return_type_mismatch_witness :
  exists err,
    NewTaskChain TInt (mkTaskChainConfig "chain" None [Some (taskFiveNil unit)])
    = Returned (None, Some err) /\
    Contains (Error err) "error" /\ Contains (Error err) "int" /\
    Contains (Error err) "chain".
Proof.
  refine (@NewTaskChain_return_type_mismatch unit TInt
            (mkTaskChainConfig "chain" None [Some (taskFiveNil unit)])
            (taskFiveNil unit) [] [TInt; errorType] errorType _ _ _ _ _).
  - reflexivity.
  - intros [|[|i]] prev curr H1 H2; discriminate.
  - reflexivity.
  - reflexivity.
  - reflexivity.
Defined.

Lemma Task_Run_result_types_witness :
  (@None error = None ->
   map staticType [mkValue TInt (boxInt 10)] = map Some (t_ReturnValueTypes (taskFirst unit))) /\
  ([mkValue TInt (boxInt 10)] = [] \/
   map staticType [mkValue TInt (boxInt 10)] = map Some (t_ReturnValueTypes (taskFirst unit))).
Proof.
  refine (@Task_Run_result_types unit (cfgFirst unit) (taskFirst unit)
            [mkValue TString (boxString "10")] (st0 tt) (mkState tt [EvFn "first"])
            [mkValue TInt (boxInt 10)] None _ _); reflexivity.
Defined.

Lemma Run_refused_arguments_witness :
  exists err,
    Run TInt (mkTaskChain [taskSecond unit] None "test_task_chain" true)
        (Some (Background unit)) [boxString "2"] (st0 tt) =
      (Returned (Zero TInt, Some err), st0 tt) /\
    Is err (errorString "invalid input params: expected int at 1 but got string") = true /\
    Contains (Error err) "test_task_chain" /\
    Contains (Error err) "invalid input params: expected int at 1 but got string".
Proof.
  refine (@Run_refused_arguments unit TInt
            (mkTaskChain [taskSecond unit] None "test_task_chain" true)
            (Some (Background unit)) [boxString "2"] (st0 tt)
            (taskSecond unit) []
            (errorString "invalid input params: expected int at 1 but got string") _ _);
    reflexivity.
Defined.

Lemma Run_task_error_witness :
  exists err,
    Run TInt chainParseTimes (Some (Background unit)) [boxString "1x"] (st0 tt) =
      (Returned (Zero TInt, Some err), mkState tt [EvFn "first"]) /\
    Is err (errorString ("strconv.Atoi: parsing " ++ quoted "1x" ++ ": invalid syntax"))
      = true /\
    Contains (Error err) ("error running task " ++ itoa 0 ++ ": ") /\
    Contains (Error err) ("strconv.Atoi: parsing " ++ quoted "1x" ++ ": invalid syntax").
Proof.
  refine (@Run_task_error unit TInt chainParseTimes (Some (Background unit))
            [boxString "1x"] (st0 tt) 0 [mkValue TString (boxString "1x")]
            (st0 tt) (mkState tt [EvFn "first"]) (taskFirst unit) []
            (errorString ("strconv.Atoi: parsing " ++ quoted "1x" ++ ": invalid syntax"))
            _ _ _ _).
  - refine (@LoopAt_first unit _ _ _ _ (taskFirst unit) [taskSecond unit] _ _); reflexivity.
  - reflexivity.
  - reflexivity.
  - reflexivity.
Defined.

Lemma Run_after_last_task_witness :
  Run TInt chainParseTimes (Some (Background unit)) [boxString "10"] (st0 tt) =
  (Returned (boxInt 100, None), mkState tt [EvFn "first"; EvFn "second"]).
Proof.
  assert (H0 : LoopAt chainParseTimes (Some (Background unit)) [boxString "10"] (st0 tt)
                 0 [mkValue TString (boxString "10")] (st0 tt)).
  { refine (@LoopAt_first unit _ _ _ _ (taskFirst unit) [taskSecond unit] _ _); reflexivity. }
  assert (H1 : LoopAt chainParseTimes (Some (Background unit)) [boxString "10"] (st0 tt)
                 1 [mkValue TInt (boxInt 10)] (mkState tt [EvFn "first"])).
  { refine (@LoopAt_next unit _ _ _ _ 0 _ _ (taskFirst unit) _ _ H0 _ _ _); reflexivity. }
  assert (H2 : LoopAt chainParseTimes (Some (Background unit)) [boxString "10"] (st0 tt)
                 (List.length (tc_Tasks chainParseTimes)) [mkValue TInt (boxInt 100)]
                 (mkState tt [EvFn "first"; EvFn "second"])).
  { refine (@LoopAt_next unit _ _ _ _ 1 _ _ (taskSecond unit) _ _ H1 _ _ _); reflexivity. }
  refine (proj2 (@Run_after_last_task unit TInt chainParseTimes (Some (Background unit))
                   [boxString "10"] (st0 tt) [mkValue TInt (boxInt 100)]
                   (mkState tt [EvFn "first"; EvFn "second"]) H2)
                TInt TInt (DInt 100) _ _ _).
  - discriminate.
  - reflexivity.
  - reflexivity.
Defined.

Lemma Run_nil_context_witness :
  Run TInt chainParseTimes (Some (Background unit)) [boxString "10"] (st0 tt) =
  Run TInt chainParseTimes None [boxString "10"] (st0 tt).
Proof.
  refine (@Run_nil_context unit TInt chainParseTimes (Background unit)
            [boxString "10"] (st0 tt) _).
  intros w. reflexivity.
Defined.

Lemma Run_panic_skips_cleanup_witness :
  exists tr,
    [EvFn "five"] = ([] ++ tr)%list /\ Forall (@isTaskEvent) tr.
Proof.
  refine (@Run_panic_skips_cleanup unit errorType
            (mkTaskChain [taskFiveNil unit] (Some (failingCleanup (W:=unit))) "chain" true)
            None [] (st0 tt) (mkState tt [EvFn "five"])
            "interface conversion: wrong dynamic type" _).
  reflexivity.
Defined.

Lemma Run_trace_in_order_witness :
  exists k,
    k <= 2 /\
    [EvFn "first"; EvFn "second"] =
      ([] ++ flat_map (@taskEvents unit) (firstn k [taskFirst unit; taskSecond unit]) ++ [])%list /\
    (@None error = None -> k = 2).
Proof.
  refine (@Run_trace_in_order unit TInt chainParseTimes (Some (Background unit))
            [boxString "10"] (st0 tt) (mkState tt [EvFn "first"; EvFn "second"])
            (boxInt 100, None) _).
  reflexivity.
Defined.

(** *** Panics and clean-up errors *)

Lemma Is_join_single (a : error) : Is (joinError [a]) a = true.
Proof. cbn [Is]. rewrite (Is_refl a). now rewrite orb_true_r. Qed.

Section PanicsAndCleanup.

Variable W : Type.


(** X20. A failing chain clean-up always shows: when the hook returns an
    error, the error [Run] returns is non-nil and [errors.Is] finds the
    hook's error in it, whatever else happened. *)
Theorem Run_cleanup_error_surfaces (T : rtype) (tc : TaskChain W)
        (ctx : option (Context W)) (params : list any) (st st' : state W)
        (v : any) (err : option error) (cleanup : W -> option error * W) :
  tc_Cleanup tc = Some cleanup ->
  Run T tc ctx params st = (Returned (v, err), st') ->
  exists st1,
    st' = mkState (snd (cleanup (world st1)))
                  (trace st1 ++ [EvChainCleanup (tc_Name tc)])%list /\
    forall ce, fst (cleanup (world st1)) = Some ce ->
               exists e, err = Some e /\ Is e ce = true.
Proof.
  intros Hcu H. apply Run_Returned in H.
  destruct H as (st1 & tr & v' & err' & _ & _ & Hst & Hr & _).
  exists st1. rewrite Hcu in Hst, Hr. split; [exact Hst|].
  intros ce Hce. inversion Hr as [[Hv He]]. unfold cleanupError. rewrite Hce.
  destruct err' as [e'|]; eexists; (split; [reflexivity|]).
  - apply Is_join_first.
  - apply Is_join_single.
Qed.


End PanicsAndCleanup.

Lemma Run_cleanup_error_surfaces_witness :
  exists st1,
    mkState tt [EvFn "first"; EvFn "second"; EvChainCleanup "test_chain"] =
      mkState (snd (failingCleanup (world st1)))
              (trace st1 ++ [EvChainCleanup "test_chain"])%list /\
    forall ce, fst (failingCleanup (world st1)) = Some ce ->
               exists e, Some (joinError [cleanupErr]) = Some e /\ Is e ce = true.
Proof.
  refine (@Run_cleanup_error_surfaces unit TInt
            (mkTaskChain [taskFirst unit; taskSecond unit]
                         (Some (failingCleanup (W:=unit))) "test_chain" true)
            (Some (Background unit)) [boxString "10"] (st0 tt)
            (mkState tt [EvFn "first"; EvFn "second"; EvChainCleanup "test_chain"])
            (boxInt 100) (Some (joinError [cleanupErr])) (failingCleanup (W:=unit)) _ _);
    reflexivity.
Defined.


